(** * IDW interpolation of station climatology onto a grid

    Shallow embedding of [scripts/02_interpolar_clima_grid.py], section 4
    ("EXECUTAR INTERPOLACAO (IDW)", source lines 134-187).

    Numbers.  The script computes in binary64.  In the engine every finite
    float is the rational it denotes and the operations are those of [Q]; the
    one non-finite value the script tests for, the [inf] that [cKDTree.query]
    puts in the slots of missing neighbours, is the constructor [Inf] of
    [xfloat].  What is proved of the engine is which branch a point takes,
    what is counted, which operations on which operands produce the number a
    slot receives, in what order things happen, and inequalities that every
    monotone rounding keeps.  What a result rounds to is not: where that
    decides, the weighting is given a second time on primitive binary64
    numbers ([binary64]) and evaluated there.
    Python integers are [Z]; positions in a list are [nat]. *)

From Stdlib Require Import ZArith QArith Qpower Qabs Qround.
From Stdlib Require Import List Sorted Permutation Bool Lia Lqa.
From Stdlib Require String PrimFloat.
Import ListNotations.
Open Scope Q_scope.

(** ** Python exceptions and fallible computations *)

Inductive exn : Type :=
| ValueError
| ZeroDivisionError
| IndexError.

Inductive result (A : Type) : Type :=
| Ok (a : A)
| Raise (e : exn).
Arguments Ok {A} a.
Arguments Raise {A} e.

Definition rbind {A B} (r : result A) (k : A -> result B) : result B :=
  match r with
  | Ok a => k a
  | Raise e => Raise e
  end.

Declare Scope result_scope.
Delimit Scope result_scope with result.
Notation "x <- r ;; k" := (rbind r (fun x => k))
  (at level 61, r at next level, right associativity) : result_scope.

(** ** The slice of Python and numpy the script uses *)

(** [a // b] on Python integers: floor division, [ZeroDivisionError] when the
    divisor is zero.  [Z.div] rounds towards minus infinity as [//] does. *)
Definition floordiv (a b : Z) : result Z :=
  if (b =? 0)%Z then Raise ZeroDivisionError else Ok (a / b)%Z.

(** [range(n)]: [0, 1, ..., n-1], empty when [n <= 0]. *)
Definition range (n : Z) : list Z := map Z.of_nat (seq 0 (Z.to_nat n)).

(** [a[start:end]] for [0 <= start]; the loop only builds such slices. *)
Definition slice {A} (a : list A) (start stop : Z) : list A :=
  firstn (Z.to_nat stop - Z.to_nat start) (skipn (Z.to_nat start) a).

(** [a[start:end] = vals] on a numpy array with a Python list on the right:
    the lengths must agree, except that a single value is broadcast over the
    slice; any other shape is a [ValueError]. *)
Definition slice_assign {A} (a : list A) (start stop : Z) (vals : list A)
  : result (list A) :=
  let n := length (slice a start stop) in
  if (length vals =? n)%nat
  then Ok (firstn (Z.to_nat start) a ++ vals ++ skipn (Z.to_nat start + n) a)
  else match vals with
       | [v] => Ok (firstn (Z.to_nat start) a ++ repeat v n
                      ++ skipn (Z.to_nat start + n) a)
       | _ => Raise ValueError
       end.

(** [a[m]] with a boolean mask [m] of the length of [a]. *)
Fixpoint select {A} (a : list A) (m : list bool) : list A :=
  match a, m with
  | x :: a', b :: m' => if b then x :: select a' m' else select a' m'
  | _, _ => []
  end.

(** [a[ix]] with an integer index array: [IndexError] out of bounds. *)
Fixpoint take {A} (a : list A) (ix : list nat) : result (list A) :=
  match ix with
  | [] => Ok []
  | i :: ix' =>
      match nth_error a i with
      | Some x => (xs <- take a ix' ;; Ok (x :: xs))%result
      | None => Raise IndexError
      end
  end.

Module np.

Definition zeros {A} (zero : A) (n : nat) : list A := repeat zero n.

Definition sum (a : list Q) : Q := fold_right Qplus 0 a.

(** [np.mean]: the sum over the number of elements.  (Of no element numpy
    returns [nan]; the script never gets there, the index construction fails
    first.) *)
Definition mean (a : list Q) : Q := sum a / inject_Z (Z.of_nat (length a)).

Fixpoint inner (a b : list Q) : Q :=
  match a, b with
  | x :: a', y :: b' => x * y + inner a' b'
  | _, _ => 0
  end.

(** [np.dot] of two vectors; the shapes must agree. *)
Definition dot (a b : list Q) : result Q :=
  if (length a =? length b)%nat then Ok (inner a b) else Raise ValueError.

(** [np.meshgrid(x, y)]: two arrays of [len(y)] rows and [len(x)] columns,
    the first with [x] in every row, the second with [y] down every column. *)
Definition meshgrid (x y : list Q) : list (list Q) * list (list Q) :=
  (map (fun _ => x) y, map (fun yi => map (fun _ => yi) x) y).

(** [a.flatten()] of a two-dimensional array: row after row. *)
Definition flatten (a : list (list Q)) : list Q := concat a.

End np.

(** ** Floats with the [inf] of the missing-neighbour slots *)

Inductive xfloat : Type :=
| Fin (q : Q)
| Inf.

(** [dists[j] != float('inf')], elementwise. *)
Definition ne_inf (row : list xfloat) : list bool :=
  map (fun v => match v with Fin _ => true | Inf => false end) row.

(** The finite entries of a row, as numbers: [dists[j][valid]] when [valid]
    is [ne_inf dists[j]]. *)
Fixpoint finite_part (row : list xfloat) : list Q :=
  match row with
  | [] => []
  | Fin q :: row' => q :: finite_part row'
  | Inf :: row' => finite_part row'
  end.

(** ** Data *)

Definition Point : Type := (Q * Q)%type.

(** A row of [gdf_estacoes]: the geometry (already in the grid's CRS) and the
    column [dry_season_length]. *)
Record Estacao : Type := { geometry : Point; dry_season_length : Q }.

(** The IDW parameters of section 1 and the batch size of section 4; the script
    fixes them as constants, see [default_config]. *)
Record Config : Type := {
  POWER : Z;
  MAX_DISTANCE_KM : Q;
  MIN_NEIGHBORS : Z;
  MAX_NEIGHBORS : Z;
  batch_size : Z
}.

Definition default_config : Config :=
  {| POWER := 2; MAX_DISTANCE_KM := 300; MIN_NEIGHBORS := 3;
     MAX_NEIGHBORS := 15; batch_size := 50000 |}.

Definition Qlt_bool (x y : Q) : bool := negb (Qle_bool y x).

(** Stable insertion sort of (distance, index) pairs by distance. *)
Fixpoint insert_by_dist (c : Q * nat) (l : list (Q * nat)) : list (Q * nat) :=
  match l with
  | [] => [c]
  | h :: t => if Qle_bool (fst c) (fst h) then c :: l else h :: insert_by_dist c t
  end.

Definition sort_by_dist (l : list (Q * nat)) : list (Q * nat) :=
  fold_right insert_by_dist [] l.

(** The order the hits of a query come in: nearest first. *)
Definition by_dist (a b : Q * nat) : Prop := fst a <= fst b.

(** ** The interpreter state: the two output buffers and a log

    [resultados] and [vizinhos_count] are the arrays of source lines 143-144.
    [trace] is not a variable of the script: it records, in order, each call of
    [tree.query] and each slice assignment, so that statements about which
    slots were written, and about what happened before a failure, can be made. *)

Inductive event : Type :=
| EvQuery (start stop : Z)
| EvSetResultados (start stop : Z)
| EvSetVizinhos (start stop : Z).

Record world : Type := {
  resultados : list Q;
  vizinhos_count : list Z;
  trace : list event
}.

Definition world0 : world :=
  {| resultados := []; vizinhos_count := []; trace := [] |}.

Definition M (A : Type) : Type := world -> result A * world.

Definition ret {A} (a : A) : M A := fun w => (Ok a, w).

Definition bind {A B} (m : M A) (k : A -> M B) : M B :=
  fun w =>
    match m w with
    | (Ok a, w') => k a w'
    | (Raise e, w') => (Raise e, w')
    end.

Definition lift {A} (r : result A) : M A := fun w => (r, w).

Definition emit (e : event) : M unit :=
  fun w => (Ok tt, {| resultados := resultados w;
                      vizinhos_count := vizinhos_count w;
                      trace := trace w ++ [e] |}).

Declare Scope monad_scope.
Delimit Scope monad_scope with monad.
Notation "x <- m ;; k" := (bind m (fun x => k))
  (at level 61, m at next level, right associativity) : monad_scope.
Notation "m ;; k" := (bind m (fun _ => k))
  (at level 61, right associativity) : monad_scope.

(** [resultados = np.zeros(n)] and [vizinhos_count = np.zeros(n, dtype=int)]. *)
Definition alloc_resultados (n : nat) : M unit :=
  fun w => (Ok tt, {| resultados := np.zeros 0 n;
                      vizinhos_count := vizinhos_count w;
                      trace := trace w |}).

Definition alloc_vizinhos (n : nat) : M unit :=
  fun w => (Ok tt, {| resultados := resultados w;
                      vizinhos_count := np.zeros 0%Z n;
                      trace := trace w |}).

(** [resultados[start:end] = batch_vals]. *)
Definition set_resultados (start stop : Z) (vals : list Q) : M unit :=
  fun w =>
    match slice_assign (resultados w) start stop vals with
    | Ok r => (Ok tt, {| resultados := r;
                         vizinhos_count := vizinhos_count w;
                         trace := trace w ++ [EvSetResultados start stop] |})
    | Raise e => (Raise e, w)
    end.

(** [vizinhos_count[start:end] = batch_neighs]. *)
Definition set_vizinhos (start stop : Z) (vals : list Z) : M unit :=
  fun w =>
    match slice_assign (vizinhos_count w) start stop vals with
    | Ok r => (Ok tt, {| resultados := resultados w;
                         vizinhos_count := r;
                         trace := trace w ++ [EvSetVizinhos start stop] |})
    | Raise e => (Raise e, w)
    end.

(** A [for] loop whose body may [break]. *)
Inductive control : Type := Continue | Break.

Fixpoint for_each {A} (xs : list A) (body : A -> M control) : M unit :=
  match xs with
  | [] => ret tt
  | x :: xs' =>
      (c <- body x ;;
       match c with
       | Break => ret tt
       | Continue => for_each xs' body
       end)%monad
  end.

(** How often slot [j] of each buffer was assigned, read off the log. *)
Definition covers (start stop : Z) (j : nat) : bool :=
  ((start <=? Z.of_nat j) && (Z.of_nat j <? stop))%Z.

Definition writes_resultados (tr : list event) (j : nat) : nat :=
  length (filter (fun ev => match ev with
                            | EvSetResultados s e => covers s e j
                            | _ => false
                            end) tr).

Definition writes_vizinhos (tr : list event) (j : nat) : nat :=
  length (filter (fun ev => match ev with
                            | EvSetVizinhos s e => covers s e j
                            | _ => false
                            end) tr).

Definition is_query (ev : event) : bool :=
  match ev with EvQuery _ _ => true | _ => false end.

Definition with_batch_size (cfg : Config) (b : Z) : Config :=
  {| POWER := POWER cfg; MAX_DISTANCE_KM := MAX_DISTANCE_KM cfg;
     MIN_NEIGHBORS := MIN_NEIGHBORS cfg; MAX_NEIGHBORS := MAX_NEIGHBORS cfg;
     batch_size := b |}.

Definition with_max_distance (cfg : Config) (km : Q) : Config :=
  {| POWER := POWER cfg; MAX_DISTANCE_KM := km;
     MIN_NEIGHBORS := MIN_NEIGHBORS cfg; MAX_NEIGHBORS := MAX_NEIGHBORS cfg;
     batch_size := batch_size cfg |}.

(** The batches the loop processes for a grid of [len] points: their number
    and their ranges [start, stop), and what each of them leaves in the log. *)
Definition num_queries (bs len : Z) : Z := ((len + bs - 1) / bs)%Z.

Definition batch_ranges (bs len : Z) : list (Z * Z) :=
  map (fun i => (i * bs, Z.min ((i + 1) * bs) len))%Z (range (num_queries bs len)).

Definition batch_events (r : Z * Z) : list event :=
  [EvQuery (fst r) (snd r); EvSetResultados (fst r) (snd r);
   EvSetVizinhos (fst r) (snd r)].

(** Ranges that follow one another without gap or overlap from [from] up to
    [to], none of them empty. *)
Fixpoint chained (from : Z) (l : list (Z * Z)) (to : Z) : Prop :=
  match l with
  | [] => from = to
  | r :: l' => fst r = from /\ (fst r < snd r)%Z /\ chained (snd r) l' to
  end.

(** A square root to run the engine with: rounded down to six decimals. *)
Definition sqrt6 (x : Q) : Q :=
  Z.sqrt (Qfloor (x * 1000000000000)) # 1000000.

(** ** The input files (source lines 57-70 and 78-85)

    Paths are modelled by their file names, the directory listing by the list
    of names [glob] returns. *)

Module Arquivos.
Import String.
Local Open Scope string_scope.

(** [sub in s] on Python strings. *)
Fixpoint contains (sub s : string) : bool :=
  if prefix sub s then true
  else match s with
       | EmptyString => false
       | String _ s' => contains sub s'
       end.

Definition marca_5km : string := "5km".
Definition marca_clima : string := "clima".

(** ['5km' in p.name and 'clima' not in p.name]. *)
Definition grid_base (name : string) : bool :=
  contains marca_5km name && negb (contains marca_clima name).

(** The search for the base grid: [PATH_GRID] after the loop of lines 82-85,
    [None] when no file qualifies. *)
Fixpoint procurar_grid (possiveis_grids : list string) : option string :=
  match possiveis_grids with
  | [] => None
  | p :: rest => if grid_base p then Some p else procurar_grid rest
  end.

(** The two files the script writes into the same directory. *)
Definition saida_gpkg : string := "grid_norte_5km_clima_interpolado.gpkg".
Definition saida_csv : string := "grid_norte_5km_clima_interpolado.csv".

(** A listing to run the search on: the two outputs and a base grid. *)
Definition grid_norte_5km : string := "grid_norte_5km.gpkg".

Definition listagem_exemplo : list string :=
  [saida_gpkg; "estados.gpkg"; grid_norte_5km; "grid_sul_5km.gpkg"].

End Arquivos.

(** ** The installation test ([test_installation.py], lines 15-55)

    What [__import__] does with a module name is given by [importer]: the
    module is imported, or the import raises [ImportError] with a message,
    or it raises something else, which the [try] does not catch. *)

Module TestInstallation.
Import String.
Local Open Scope string_scope.

Inductive import_outcome : Type :=
| Imported
| RaisesImportError (e : string)
| RaisesOther.

Definition libs_to_test : list (string * string) :=
  [ ("geopandas", "GeoPandas"); ("rasterio", "Rasterio"); ("xarray", "xarray");
    ("rioxarray", "rioxarray"); ("sklearn", "Scikit-learn");
    ("xgboost", "XGBoost"); ("matplotlib", "Matplotlib"); ("pandas", "Pandas");
    ("numpy", "NumPy"); ("scipy", "SciPy"); ("folium", "Folium");
    ("plotly", "Plotly"); ("yaml", "PyYAML"); ("reportlab", "ReportLab") ].

(** A printed line of the loop: the library is fine, or its import failed. *)
Inductive line : Type :=
| LineOk (display_name : string)
| LineErro (display_name e : string).

(** The modules whose import was attempted, the lines printed, and the list
    [errors], all in order. *)
Record state : Type := {
  attempted : list string;
  printed : list line;
  errors : list string
}.

Definition state0 : state := {| attempted := []; printed := []; errors := [] |}.

(** The loop ends, or an exception other than [ImportError] leaves it. *)
Inductive outcome : Type :=
| Finished (st : state)
| Uncaught (st : state).

Fixpoint test_libs (importer : string -> import_outcome)
    (libs : list (string * string)) (st : state) : outcome :=
  match libs with
  | [] => Finished st
  | (module_name, display_name) :: rest =>
      let tried := (attempted st ++ [module_name])%list in
      match importer module_name with
      | Imported =>
          test_libs importer rest
            {| attempted := tried;
               printed := (printed st ++ [LineOk display_name])%list;
               errors := errors st |}
      | RaisesImportError e =>
          test_libs importer rest
            {| attempted := tried;
               printed := (printed st ++ [LineErro display_name e])%list;
               errors := (errors st ++ [display_name])%list |}
      | RaisesOther =>
          Uncaught {| attempted := tried; printed := printed st;
                      errors := errors st |}
      end
  end.

(** The closing message: success, or the number and the names of the
    libraries with a problem. *)
Inductive verdict : Type :=
| Sucesso
| Problemas (n : nat) (libs : list string).

Definition final_message (errors : list string) : verdict :=
  match errors with
  | [] => Sucesso
  | _ :: _ => Problemas (List.length errors) errors
  end.

(** How one library is reported when its import does not escape the loop. *)
Definition report (importer : string -> import_outcome)
    (lib : string * string) : line :=
  match importer (fst lib) with
  | RaisesImportError e => LineErro (snd lib) e
  | _ => LineOk (snd lib)
  end.

Definition fails (importer : string -> import_outcome)
    (lib : string * string) : bool :=
  match importer (fst lib) with
  | RaisesImportError _ => true
  | _ => false
  end.

Definition escapes (importer : string -> import_outcome)
    (lib : string * string) : bool :=
  match importer (fst lib) with
  | RaisesOther => true
  | _ => false
  end.

(** Two environments to run the test in: one where only [xgboost] is
    missing, one where importing [rasterio] breaks with another exception. *)
Definition importer_sem_xgboost (module_name : string) : import_outcome :=
  if String.eqb module_name "xgboost"
  then RaisesImportError "No module named 'xgboost'"
  else Imported.

Definition importer_rasterio_quebrado (module_name : string) : import_outcome :=
  if String.eqb module_name "rasterio" then RaisesOther else Imported.

(** The list of libraries around [rasterio]. *)
Definition antes_de_rasterio : list (string * string) :=
  [ ("geopandas", "GeoPandas") ].

Definition lib_rasterio : string * string := ("rasterio", "Rasterio").

Definition depois_de_rasterio : list (string * string) :=
  List.skipn 2 libs_to_test.

End TestInstallation.

(** ** The automatic grid (source lines 110-112)

    Used when no base grid file is found.  The two axes [x] and [y] are what
    [np.arange] returns for the bounds of the projected bounding box (source
    lines 108-109); they are taken as given, since how many values
    [np.arange] yields depends on the rounding of a binary64 quotient.  No
    arithmetic is done on them here. *)

Definition points (x y : list Q) : list Point :=
  let '(xx, yy) := np.meshgrid x y in
  combine (np.flatten xx) (np.flatten yy).

(** ** The weighting in binary64 (source lines 178-180)

    The engine below computes with exact rationals.  The script computes in
    binary64, and this is the weighting of one grid point in that arithmetic:
    for the script's [POWER = 2], which numpy evaluates by one multiplication,
    and for fewer than eight neighbours, which [np.sum] and [np.dot] add one
    after the other from the left.  Longer arrays are added in blocks; of
    them nothing is said, [idw] returns [None]. *)

Module binary64.

Import PrimFloat.
Local Open Scope float_scope.

(** The binary64 number the literal [1e-12] denotes. *)
Definition eps : float := 0x1.19799812dea11p-40.

(** [w = 1.0 / (d + 1e-12)**POWER] *)
Definition raw_weights (d : list float) : list float :=
  map (fun di => 1 / ((di + eps) * (di + eps))) d.

Definition sum (a : list float) : float := fold_left add a 0.

(** [w /= w.sum()] *)
Definition normalize (w : list float) : list float :=
  let s := sum w in map (fun wi => wi / s) w.

Definition dot (a b : list float) : float :=
  fold_left (fun acc p => acc + fst p * snd p) (combine a b) 0.

(** [val = np.dot(w, valores_estacoes[ix])], from the distances [d] and the
    values [vals] of the neighbours. *)
Definition idw (d vals : list float) : option float :=
  if ((length d <? 8) && (length d =? length vals))%nat
  then Some (dot (normalize (raw_weights d)) vals)
  else None.

(** Three neighbours at 200 m, 250 m and 1000 m, each of value 7. *)
Definition d_7 : list float := [200; 250; 1000].
Definition vals_7 : list float := [7; 7; 7].

Definition one : float := 1.
Definition seven : float := 7.

(** The binary64 number just below 7, printed 6.999999999999999. *)
Definition below_seven : float := 0x1.bffffffffffffp+2.

End binary64.

(** ** The spatial index: what it holds

    [scipy.spatial.cKDTree] is a library of its own; of the tree only the
    data points it was built from matter here. *)

Record cKDTree : Type := { data : list Point }.

Definition tree_n (t : cKDTree) : nat := length (data t).

(** [cKDTree(coords)]: the coordinates must form an [(n, 2)] array.  The
    script builds them with [np.array([[g.x, g.y] for g in ...])], which for
    no station at all is the one-dimensional empty array, and the constructor
    rejects it with [ValueError]. *)
Definition cKDTree_init (coords : list Point) : result cKDTree :=
  match coords with
  | [] => Raise ValueError
  | _ :: _ => Ok {| data := coords |}
  end.

(** Two enumerations of the data points to run the engine with: by rising
    and by falling index. *)
Definition index_order (t : cKDTree) (x : Point) (k : Z) (ub : Q) : list nat :=
  seq 0 (tree_n t).

Definition reverse_order (t : cKDTree) (x : Point) (k : Z) (ub : Q) : list nat :=
  rev (seq 0 (tree_n t)).

(** ** Example data: the scenarios of the specification *)

(** Three stations at (0,0), (100,0) and (0,100) metres with values 10, 20
    and 30; power 2, at least one neighbour, at most three, cutoff 1000 m. *)
Definition estacoes3 : list Estacao :=
  [ {| geometry := (0, 0); dry_season_length := 10 |};
    {| geometry := (100, 0); dry_season_length := 20 |};
    {| geometry := (0, 100); dry_season_length := 30 |} ].

Definition cfg3 : Config :=
  {| POWER := 2; MAX_DISTANCE_KM := 1; MIN_NEIGHBORS := 1;
     MAX_NEIGHBORS := 3; batch_size := 2 |}.

(** Four grid points: between two stations, on a station, far from all, on
    another station.  With [cfg3] they make two full batches. *)
Definition grid4 : list Point := [(50, 0); (0, 0); (5000, 5000); (100, 0)].

(** One station of value 42 at the origin, a cutoff of 300 m. *)
Definition estacao42 : list Estacao :=
  [ {| geometry := (0, 0); dry_season_length := 42 |} ].

Definition cfg_sparse : Config :=
  {| POWER := 2; MAX_DISTANCE_KM := 0.3; MIN_NEIGHBORS := 1;
     MAX_NEIGHBORS := 3; batch_size := 50000 |}.

(** Three stations of value 7, at 200 m, 250 m and 1000 m from the origin. *)
Definition estacoes_7 : list Estacao :=
  [ {| geometry := (200, 0); dry_season_length := 7 |};
    {| geometry := (0, 250); dry_season_length := 7 |};
    {| geometry := (1000, 0); dry_season_length := 7 |} ].

(** Two stations, the second exactly at the cutoff of 1000 m from the first;
    two neighbours required. *)
Definition estacoes_borda : list Estacao :=
  [ {| geometry := (0, 0); dry_season_length := 10 |};
    {| geometry := (1000, 0); dry_season_length := 20 |} ].

Definition cfg_borda : Config :=
  {| POWER := 2; MAX_DISTANCE_KM := 1; MIN_NEIGHBORS := 2;
     MAX_NEIGHBORS := 3; batch_size := 2 |}.


(** Four stations at the same distance from the origin, more than the three
    neighbours asked for. *)
Definition estacoes_empate : list Estacao :=
  [ {| geometry := (100, 0); dry_season_length := 1 |};
    {| geometry := (0, 100); dry_season_length := 2 |};
    {| geometry := (-100, 0); dry_season_length := 3 |};
    {| geometry := (0, -100); dry_season_length := 4 |} ].

(** Configurations that break one of the three constraints each. *)
Definition cfg_power0 : Config :=
  {| POWER := 0; MAX_DISTANCE_KM := 1; MIN_NEIGHBORS := 1;
     MAX_NEIGHBORS := 3; batch_size := 2 |}.

Definition cfg_min0 : Config :=
  {| POWER := 2; MAX_DISTANCE_KM := 1; MIN_NEIGHBORS := 0;
     MAX_NEIGHBORS := 3; batch_size := 2 |}.

Definition cfg_max_lt_min : Config :=
  {| POWER := 2; MAX_DISTANCE_KM := 1; MIN_NEIGHBORS := 3;
     MAX_NEIGHBORS := 2; batch_size := 2 |}.

(** ** The engine *)

Section Engine.

(** The square root of the arithmetic in use, as a function on the rationals
    it is applied to.  Only the two facts below are ever assumed of it; the
    correctly rounded binary64 square root has both. *)
Variable sqrt : Q -> Q.
Hypothesis sqrt_nonneg : forall x, 0 <= sqrt x.
Hypothesis sqrt_0 : forall x, x == 0 -> sqrt x == 0.

(** The order in which the index comes upon its data points while it answers
    a query: an enumeration of the indices [0 .. n-1], which may depend on
    every argument of the query.  The library documents no order among data
    points at equal distance; they are reported in this one, and it is this
    one that decides which of them is kept when [k] cuts a tie.  Nothing but
    its being an enumeration is assumed of it. *)
Variable visit : cKDTree -> Point -> Z -> Q -> list nat.
Hypothesis visit_perm :
  forall t x k ub, Permutation (visit t x k ub) (seq 0 (tree_n t)).

(** *** [scipy.spatial.cKDTree], as documented

    The index is modelled by what it answers, not by how: the [k] nearest
    data points in Euclidean distance (Minkowski [p = 2]), nearest first,
    among those closer than [distance_upper_bound]; missing neighbours are
    reported with distance [inf] and index [n], the number of data points. *)

Definition distance (a b : Point) : Q :=
  sqrt ((fst a - fst b) ^ 2 + (snd a - snd b) ^ 2).

(** Every data point with its distance to [x] and its index, in the order
    the index comes upon them. *)
Definition all_dists (t : cKDTree) (x : Point) (k : Z) (ub : Q)
  : list (Q * nat) :=
  map (fun i => (distance x (nth i (data t) (0, 0)), i)) (visit t x k ub).

(** The data points in range of [x], nearest first. *)
Definition in_range (t : cKDTree) (x : Point) (k : Z) (ub : Q)
  : list (Q * nat) :=
  sort_by_dist (filter (fun c => Qlt_bool (fst c) ub) (all_dists t x k ub)).

(** One row of the answer: [k] slots, the hits first, then the padding. *)
Definition query_point (t : cKDTree) (x : Point) (k : Z) (ub : Q)
  : list xfloat * list nat :=
  let hits := firstn (Z.to_nat k) (in_range t x k ub) in
  let missing := (Z.to_nat k - length hits)%nat in
  (map (fun c => Fin (fst c)) hits ++ repeat Inf missing,
   map snd hits ++ repeat (tree_n t) missing).

(** The two arrays [(dists, idxs)] of an answer, one row per query point. *)
Definition query_rows (t : cKDTree) (xs : list Point) (k : Z) (ub : Q)
  : list (list xfloat) * list (list nat) :=
  (map (fun x => fst (query_point t x k ub)) xs,
   map (fun x => snd (query_point t x k ub)) xs).

(** [tree.query(xs, k=k, distance_upper_bound=ub)].  The number of
    neighbours asked for must be at least one: the library takes the
    maximum of [1..k] and fails with [ValueError] when there is none. *)
Definition query (t : cKDTree) (xs : list Point) (k : Z) (ub : Q)
  : result (list (list xfloat) * list (list nat)) :=
  if (k <? 1)%Z then Raise ValueError else Ok (query_rows t xs k ub).

(** What the validity filter of source lines 167-169 keeps of the row of
    [x]: the pairs of [d = dists[j][valid]] and [ix = idxs[j][valid]]. *)
Definition valid_neighbors (t : cKDTree) (x : Point) (k : Z) (ub : Q)
  : list (Q * nat) :=
  let '(dists_j, idxs_j) := query_point t x k ub in
  combine (finite_part dists_j) (select idxs_j (ne_inf dists_j)).

(** *** One grid point (source lines 166-181) *)

Definition eps : Q := 1e-12.

(** [w = 1.0 / (d + 1e-12)**POWER].  Distances are not negative, so the base
    of the power is positive and no division here is by zero
    ([denominator_pos] below). *)
Definition raw_weights (cfg : Config) (d : list Q) : list Q :=
  map (fun di => 1 / (di + eps) ^ POWER cfg) d.

(** [w /= w.sum()].  The sum of a non-empty array of positive weights is
    positive; of an empty array nothing is divided. *)
Definition normalize (w : list Q) : list Q :=
  let s := np.sum w in map (fun wi => wi / s) w.

Definition interp_point (cfg : Config) (valores_estacoes : list Q)
    (dists_j : list xfloat) (idxs_j : list nat) : result (Q * Z) :=
  let valid := ne_inf dists_j in
  let d := finite_part dists_j in
  let ix := select idxs_j valid in
  if (Z.of_nat (length d) <? MIN_NEIGHBORS cfg)%Z then
    Ok (np.mean valores_estacoes, 0%Z)
  else
    let w := normalize (raw_weights cfg d) in
    (vals <- take valores_estacoes ix ;;
     val <- np.dot w vals ;;
     Ok (val, Z.of_nat (length d)))%result.

(** *** The loop over the points of a batch (source lines 162-184) *)

Fixpoint batch_loop (cfg : Config) (valores_estacoes : list Q)
    (dists : list (list xfloat)) (idxs : list (list nat))
    (js : list nat) (batch_vals : list Q) (batch_neighs : list Z)
  : result (list Q * list Z) :=
  match js with
  | [] => Ok (batch_vals, batch_neighs)
  | j :: js' =>
      match nth_error dists j, nth_error idxs j with
      | Some dists_j, Some idxs_j =>
          (r <- interp_point cfg valores_estacoes dists_j idxs_j ;;
           batch_loop cfg valores_estacoes dists idxs js'
             (batch_vals ++ [fst r]) (batch_neighs ++ [snd r]))%result
      | _, _ => Raise IndexError
      end
  end.

(** *** One batch (source lines 153-187)

    The call of [tree.query] is logged when it is made, the two slice
    assignments when they succeed. *)

Definition batch (cfg : Config) (tree : cKDTree) (valores_estacoes : list Q)
    (coords_grid : list Point) (max_dist_m : Q) (i : Z) : M control :=
  let start := (i * batch_size cfg)%Z in
  let stop := Z.min ((i + 1) * batch_size cfg) (Z.of_nat (length coords_grid)) in
  if (start >=? stop)%Z then ret Break
  else
    let batch_coords := slice coords_grid start stop in
    (emit (EvQuery start stop) ;;
     answer <- lift (query tree batch_coords (MAX_NEIGHBORS cfg) max_dist_m) ;;
     let '(dists, idxs) := answer in
     out <- lift (batch_loop cfg valores_estacoes dists idxs
                    (seq 0 (length batch_coords)) [] []) ;;
     set_resultados start stop (fst out) ;;
     set_vizinhos start stop (snd out) ;;
     ret Continue)%monad.

(** *** Section 4 of the script (source lines 134-187) *)

Definition interpolar (cfg : Config) (gdf_estacoes : list Estacao)
    (coords_grid : list Point) : M unit :=
  let coords_estacoes := map geometry gdf_estacoes in
  let valores_estacoes := map dry_season_length gdf_estacoes in
  (tree <- lift (cKDTree_init coords_estacoes) ;;
   let max_dist_m := MAX_DISTANCE_KM cfg * 1000 in
   alloc_resultados (length coords_grid) ;;
   alloc_vizinhos (length coords_grid) ;;
   q <- lift (floordiv (Z.of_nat (length coords_grid)) (batch_size cfg)) ;;
   let num_batches := (q + 1)%Z in
   for_each (range num_batches)
     (batch cfg tree valores_estacoes coords_grid max_dist_m))%monad.

(** The run from the initial state, and what it leaves in the buffers:
    the sequence of (estimate, neighbour count), one per grid point. *)
Definition run (cfg : Config) (gdf_estacoes : list Estacao)
    (coords_grid : list Point) : result unit * world :=
  interpolar cfg gdf_estacoes coords_grid world0.

Definition output (w : world) : list (Q * Z) :=
  combine (resultados w) (vizinhos_count w).

(** *** Vocabulary of the statements *)

(** The index, the values and the cutoff a run works with. *)
Definition tree_of (gdf_estacoes : list Estacao) : cKDTree :=
  {| data := map geometry gdf_estacoes |}.

Definition valores (gdf_estacoes : list Estacao) : list Q :=
  map dry_season_length gdf_estacoes.

Definition max_dist_m (cfg : Config) : Q := MAX_DISTANCE_KM cfg * 1000.

(** The valid neighbours of grid point [x] in a run. *)
Definition neighbors (cfg : Config) (gdf_estacoes : list Estacao) (x : Point)
  : list (Q * nat) :=
  valid_neighbors (tree_of gdf_estacoes) x (MAX_NEIGHBORS cfg) (max_dist_m cfg).

(** The number of stations the index counts as in range of [x]. *)
Definition stations_in_range (cfg : Config) (gdf_estacoes : list Estacao)
    (x : Point) : nat :=
  length (filter (fun s => Qlt_bool (distance x (geometry s)) (max_dist_m cfg))
            gdf_estacoes).

(** The values of the stations with the given indices. *)
Definition values_at (vals : list Q) (ix : list nat) : list Q :=
  map (fun i => nth i vals 0) ix.

(** The pair a grid point gets, as a function of its valid neighbours: the
    non-batched reading of the loop body, "map each grid point to an
    estimate given a fixed index and value array". *)
Definition point_value (cfg : Config) (vals : list Q) (nb : list (Q * nat))
  : Q * Z :=
  if (Z.of_nat (length nb) <? MIN_NEIGHBORS cfg)%Z then (np.mean vals, 0%Z)
  else (np.inner (normalize (raw_weights cfg (map fst nb)))
          (values_at vals (map snd nb)),
        Z.of_nat (length nb)).

Definition interpolar_unbatched (cfg : Config) (gdf_estacoes : list Estacao)
    (coords_grid : list Point) : list (Q * Z) :=
  map (fun x => point_value cfg (valores gdf_estacoes)
                  (neighbors cfg gdf_estacoes x)) coords_grid.

(** The state after the grid points before position [pos] have been
    processed: their slots hold their values and were assigned once, the
    other slots still hold the zero they were allocated with. *)
Definition filled (cfg : Config) (gdf_estacoes : list Estacao)
    (coords_grid : list Point) (pos : nat) (w : world) : Prop :=
  let done := interpolar_unbatched cfg gdf_estacoes (firstn pos coords_grid) in
  resultados w = map fst done ++ repeat 0 (length coords_grid - pos) /\
  vizinhos_count w = map snd done ++ repeat 0%Z (length coords_grid - pos) /\
  (forall j, writes_resultados (trace w) j = if (j <? pos)%nat then 1%nat else 0%nat) /\
  (forall j, writes_vizinhos (trace w) j = if (j <? pos)%nat then 1%nat else 0%nat).

(** ** Facts about the Python and numpy slice *)

Lemma Qlt_bool_iff (x y : Q) : Qlt_bool x y = true <-> x < y.
Proof.
  unfold Qlt_bool. rewrite negb_true_iff, <- not_true_iff_false, Qle_bool_iff.
  split; [apply Qnot_le_lt | apply Qlt_not_le].
Qed.

Lemma finite_part_hits (hits : list (Q * nat)) (m : nat) :
  finite_part (map (fun c => Fin (fst c)) hits ++ repeat Inf m) = map fst hits.
Proof.
  induction hits as [|c hits IH]; simpl.
  - induction m; simpl; auto.
  - now rewrite IH.
Qed.

Lemma select_hits (hits : list (Q * nat)) (n m : nat) :
  select (map snd hits ++ repeat n m)
    (ne_inf (map (fun c => Fin (fst c)) hits ++ repeat Inf m)) = map snd hits.
Proof.
  induction hits as [|c hits IH]; simpl.
  - induction m; simpl; auto.
  - now rewrite IH.
Qed.

(** The validity filter on any row: the slots with a finite distance are
    kept, each distance with the index of its own slot, in order. *)
Lemma filter_keeps_finite (row : list xfloat) (idx : list nat) :
  length row = length idx ->
  length (finite_part row) = length (select idx (ne_inf row))
  /\ combine (finite_part row) (select idx (ne_inf row))
     = flat_map (fun c => match fst c with
                          | Fin q => [(q, snd c)]
                          | Inf => []
                          end) (combine row idx).
Proof.
  revert idx. induction row as [|[q|] row IH]; intros [|i idx] Hl;
    try discriminate; [split; reflexivity| |].
  - destruct (IH idx) as [H1 H2]; [simpl in Hl; congruence|].
    cbn [finite_part ne_inf map select combine flat_map fst snd length app].
    fold (ne_inf row). split; [now rewrite H1 | now rewrite H2].
  - cbn [finite_part ne_inf map select combine flat_map fst snd app].
    fold (ne_inf row). apply IH. simpl in Hl. congruence.
Qed.

Lemma combine_fst_snd {A B} (l : list (A * B)) :
  combine (map fst l) (map snd l) = l.
Proof. induction l as [|[a b] l IH]; simpl; congruence. Qed.

Lemma take_values (a : list Q) (ix : list nat) :
  (forall i, In i ix -> (i < length a)%nat) ->
  take a ix = Ok (values_at a ix).
Proof.
  induction ix as [|i ix IH]; intros Hix; simpl; auto.
  destruct (nth_error a i) as [x|] eqn:E.
  - rewrite IH by (intros; apply Hix; now right). simpl.
    now rewrite (nth_error_nth _ _ 0 E).
  - apply nth_error_None in E. specialize (Hix i (or_introl eq_refl)). lia.
Qed.

Lemma slice_length {A} (a : list A) (start stop : Z) :
  (0 <= start <= stop)%Z -> (stop <= Z.of_nat (length a))%Z ->
  length (slice a start stop) = Z.to_nat (stop - start).
Proof.
  intros H1 H2. unfold slice. rewrite length_firstn, length_skipn. lia.
Qed.

(** ** Facts about the nearest-neighbour query *)

Lemma insert_by_dist_perm c l : Permutation (insert_by_dist c l) (c :: l).
Proof.
  induction l as [|h t IH]; simpl; auto.
  destruct (Qle_bool (fst c) (fst h)); auto.
  rewrite IH. apply perm_swap.
Qed.

Lemma sort_by_dist_perm l : Permutation (sort_by_dist l) l.
Proof.
  induction l as [|c l IH]; simpl; auto.
  rewrite insert_by_dist_perm. now constructor.
Qed.

Lemma insert_by_dist_sorted c l :
  StronglySorted by_dist l -> StronglySorted by_dist (insert_by_dist c l).
Proof.
  induction 1 as [|h t Ht IH Hh]; simpl.
  - repeat constructor.
  - destruct (Qle_bool (fst c) (fst h)) eqn:E.
    + apply Qle_bool_iff in E. constructor; [now constructor|].
      constructor; auto.
      rewrite Forall_forall in *. intros y Hy. unfold by_dist in *.
      eapply Qle_trans; eauto.
    + constructor; auto.
      assert (Hhc : fst h <= fst c).
      { apply Qlt_le_weak, Qlt_bool_iff. unfold Qlt_bool. now rewrite E. }
      rewrite Forall_forall in *. intros y Hy.
      apply (Permutation_in _ (insert_by_dist_perm c t)) in Hy.
      destruct Hy as [<-|Hy]; auto.
Qed.

Lemma sort_by_dist_sorted l : StronglySorted by_dist (sort_by_dist l).
Proof.
  induction l; simpl; [constructor | now apply insert_by_dist_sorted].
Qed.

Lemma in_firstn {A} (n : nat) (l : list A) (x : A) :
  In x (firstn n l) -> In x l.
Proof.
  intros H. rewrite <- (firstn_skipn n l). apply in_or_app. now left.
Qed.

Lemma StronglySorted_firstn {A} (R : A -> A -> Prop) (n : nat) (l : list A) :
  StronglySorted R l -> StronglySorted R (firstn n l).
Proof.
  intros H. revert n. induction H as [|a l Hl IH Ha]; intros [|n]; simpl;
    try constructor; auto.
  rewrite Forall_forall in *. intros y Hy. apply Ha.
  eapply in_firstn; eauto.
Qed.

Lemma valid_neighbors_firstn t x k ub :
  valid_neighbors t x k ub = firstn (Z.to_nat k) (in_range t x k ub).
Proof.
  unfold valid_neighbors, query_point.
  rewrite finite_part_hits, select_hits. apply combine_fst_snd.
Qed.

Lemma in_combine_seq {A} (f : A -> Q) (l : list A) (a : nat) (d : Q) (i : nat) :
  In (d, i) (combine (map f l) (seq a (length l))) <->
  exists p, (a <= i)%nat /\ nth_error l (i - a) = Some p /\ d = f p.
Proof.
  revert a. induction l as [|y l IH]; intros a; simpl.
  - split; [tauto|]. intros (p & _ & H & _). now destruct (i - a)%nat.
  - rewrite IH. split.
    + intros [E|(p & Ha & Hn & ->)].
      * inversion E; subst. exists y. rewrite Nat.sub_diag. auto.
      * exists p. replace (i - a)%nat with (S (i - S a)) by lia. auto with arith.
    + intros (p & Ha & Hn & ->).
      destruct (i - a)%nat as [|m] eqn:E.
      * left. inversion Hn; subst. f_equal. lia.
      * right. exists p. replace (i - S a)%nat with m by lia.
        repeat split; auto. lia.
Qed.

Lemma all_dists_index_order {A} (f : A -> Q) (l : list A) (d : A) (a : nat) :
  combine (map f l) (seq a (length l))
  = map (fun i => (f (nth i l d), (a + i)%nat)) (seq 0 (length l)).
Proof.
  revert a. induction l as [|y l IH]; intros a; simpl; auto.
  rewrite Nat.add_0_r. f_equal.
  rewrite IH, <- seq_shift, map_map. apply map_ext.
  intros i. f_equal. lia.
Qed.

Lemma all_dists_perm t x k ub :
  Permutation (all_dists t x k ub)
    (combine (map (distance x) (data t)) (seq 0 (tree_n t))).
Proof.
  unfold all_dists, tree_n.
  rewrite (all_dists_index_order (distance x) (data t) (0, 0) 0).
  cbn [Nat.add]. apply Permutation_map, visit_perm.
Qed.

Lemma filter_perm_length {A} (P : A -> bool) (l l' : list A) :
  Permutation l l' -> length (filter P l) = length (filter P l').
Proof.
  induction 1 as [|y l l' _ IH|y z l|l l' l'' _ IH1 _ IH2]; simpl; auto.
  - destruct (P y); simpl; congruence.
  - destruct (P y), (P z); reflexivity.
  - congruence.
Qed.

Lemma in_all_dists t x k ub d i :
  In (d, i) (all_dists t x k ub) <->
  exists p, nth_error (data t) i = Some p /\ d = distance x p.
Proof.
  split.
  - intros H. apply (Permutation_in _ (all_dists_perm t x k ub)) in H.
    unfold tree_n in H. apply in_combine_seq in H.
    rewrite Nat.sub_0_r in H. destruct H as (p & _ & H). eauto.
  - intros (p & Hp & Hd).
    apply (Permutation_in _ (Permutation_sym (all_dists_perm t x k ub))).
    unfold tree_n. apply in_combine_seq. rewrite Nat.sub_0_r.
    exists p. auto with arith.
Qed.

Lemma in_in_range t x k ub d i :
  In (d, i) (in_range t x k ub) <->
  exists p, nth_error (data t) i = Some p /\ d = distance x p /\ d < ub.
Proof.
  unfold in_range. split.
  - intros H. apply (Permutation_in _ (sort_by_dist_perm _)) in H.
    apply filter_In in H. destruct H as [H1 H2]. simpl in H2.
    apply in_all_dists in H1. destruct H1 as (p & Hp & ->).
    apply Qlt_bool_iff in H2. eauto.
  - intros (p & Hp & -> & Hlt).
    apply (Permutation_in _ (Permutation_sym (sort_by_dist_perm _))).
    apply filter_In. split.
    + apply in_all_dists. eauto.
    + simpl. now apply Qlt_bool_iff.
Qed.

Lemma filter_combine_seq_length {A} (f : A -> Q) (P : Q -> bool) (l : list A) a :
  length (filter (fun c : Q * nat => P (fst c)) (combine (map f l) (seq a (length l))))
  = length (filter (fun y => P (f y)) l).
Proof.
  revert a. induction l as [|y l IH]; intros a; simpl; auto.
  destruct (P (f y)); simpl; now rewrite IH.
Qed.

Lemma in_range_length t x k ub :
  length (in_range t x k ub)
  = length (filter (fun p => Qlt_bool (distance x p) ub) (data t)).
Proof.
  unfold in_range. rewrite (Permutation_length (sort_by_dist_perm _)).
  rewrite (filter_perm_length _ _ _ (all_dists_perm t x k ub)).
  unfold tree_n.
  apply (filter_combine_seq_length (distance x) (fun d => Qlt_bool d ub)).
Qed.

Lemma filter_map_length {A B} (g : A -> B) (P : B -> bool) (l : list A) :
  length (filter P (map g l)) = length (filter (fun y => P (g y)) l).
Proof.
  induction l as [|y l IH]; simpl; auto. destruct (P (g y)); simpl; now rewrite IH.
Qed.

Lemma neighbors_length cfg est x :
  length (neighbors cfg est x)
  = Nat.min (Z.to_nat (MAX_NEIGHBORS cfg)) (stations_in_range cfg est x).
Proof.
  unfold neighbors. rewrite valid_neighbors_firstn, length_firstn, in_range_length.
  unfold tree_of, stations_in_range. simpl. now rewrite filter_map_length.
Qed.

Lemma neighbors_index cfg est x d i :
  In (d, i) (neighbors cfg est x) -> (i < length est)%nat.
Proof.
  unfold neighbors. rewrite valid_neighbors_firstn. intros H.
  apply in_firstn, in_in_range in H. destruct H as (p & Hp & _).
  assert (Hl : (i < length (data (tree_of est)))%nat)
    by (apply nth_error_Some; congruence).
  unfold tree_of in Hl. simpl in Hl. now rewrite length_map in Hl.
Qed.

Lemma nodup_filter_snd (P : Q * nat -> bool) (l : list (Q * nat)) :
  NoDup (map snd l) -> NoDup (map snd (filter P l)).
Proof.
  induction l as [|c l IH]; simpl; intros H; [constructor|].
  inversion H as [|? ? Hc Hl]; subst.
  destruct (P c); simpl; auto. constructor; auto.
  intros Hin. apply Hc. apply in_map_iff in Hin.
  destruct Hin as (c' & E & Hc'). apply filter_In in Hc'.
  apply in_map_iff. exists c'. tauto.
Qed.

(** No station is reported twice. *)
Lemma in_range_nodup t x k ub : NoDup (map snd (in_range t x k ub)).
Proof.
  unfold in_range.
  apply (Permutation_NoDup
           (Permutation_map snd (Permutation_sym (sort_by_dist_perm _)))).
  apply nodup_filter_snd. unfold all_dists. rewrite map_map. cbn [snd].
  rewrite map_id.
  apply (Permutation_NoDup (Permutation_sym (visit_perm t x k ub))), seq_NoDup.
Qed.

Lemma sorted_map_fst (l : list (Q * nat)) :
  StronglySorted by_dist l -> StronglySorted Qle (map fst l).
Proof.
  induction 1 as [|c l _ IH Hc]; simpl; constructor; auto.
  apply Forall_forall. intros y Hy. apply in_map_iff in Hy.
  destruct Hy as (c' & <- & Hc'). rewrite Forall_forall in Hc. now apply Hc.
Qed.

Lemma Forall2_fst_snd {A B} (R : A -> B -> Prop) (l : list (A * B)) :
  (forall c, In c l -> R (fst c) (snd c)) ->
  Forall2 R (map fst l) (map snd l).
Proof.
  induction l as [|c l IH]; simpl; intros H; constructor; auto.
Qed.

Lemma sorted_app_cross {A} (R : A -> A -> Prop) (l1 l2 : list A) :
  StronglySorted R (l1 ++ l2) ->
  forall a b, In a l1 -> In b l2 -> R a b.
Proof.
  induction l1 as [|y l1 IH]; simpl; intros H a b Ha Hb; [contradiction|].
  inversion H as [|? ? Hs Hf]; subst. destruct Ha as [->|Ha].
  - rewrite Forall_forall in Hf. apply Hf, in_or_app. now right.
  - now apply IH.
Qed.

Lemma distance_nonneg a b : 0 <= distance a b.
Proof. apply sqrt_nonneg. Qed.

Lemma query_point_length t x k ub :
  length (fst (query_point t x k ub)) = Z.to_nat k
  /\ length (snd (query_point t x k ub)) = Z.to_nat k.
Proof.
  unfold query_point. cbn [fst snd].
  rewrite !length_app, !length_map, !repeat_length, length_firstn. lia.
Qed.

(** ** One grid point never fails *)

Lemma normalize_length w : length (normalize w) = length w.
Proof. unfold normalize. apply length_map. Qed.

Lemma raw_weights_length cfg d : length (raw_weights cfg d) = length d.
Proof. unfold raw_weights. apply length_map. Qed.

Lemma interp_point_query cfg est x :
  let row := query_point (tree_of est) x (MAX_NEIGHBORS cfg) (max_dist_m cfg) in
  interp_point cfg (valores est) (fst row) (snd row)
  = Ok (point_value cfg (valores est) (neighbors cfg est x)).
Proof.
  pose proof (neighbors_index cfg est x) as Hix.
  unfold neighbors in *. rewrite valid_neighbors_firstn in *.
  unfold interp_point, point_value, query_point. simpl fst. simpl snd.
  set (hits := firstn _ _) in *.
  rewrite finite_part_hits, select_hits, length_map.
  destruct (Z.of_nat (length hits) <? MIN_NEIGHBORS cfg)%Z; auto.
  rewrite take_values.
  - simpl. unfold np.dot, values_at.
    rewrite normalize_length, raw_weights_length, !length_map, Nat.eqb_refl.
    reflexivity.
  - intros i Hi. apply in_map_iff in Hi. destruct Hi as ([d i'] & <- & Hi).
    unfold valores. rewrite length_map. eapply Hix; eauto.
Qed.

(** ** One batch *)

Lemma batch_loop_spec cfg est k ub (g : Point -> Q * Z) suf :
  forall pre batch_vals batch_neighs,
  (forall x, In x suf ->
     interp_point cfg (valores est)
       (fst (query_point (tree_of est) x k ub))
       (snd (query_point (tree_of est) x k ub)) = Ok (g x)) ->
  batch_loop cfg (valores est)
    (fst (query_rows (tree_of est) (pre ++ suf) k ub))
    (snd (query_rows (tree_of est) (pre ++ suf) k ub))
    (seq (length pre) (length suf)) batch_vals batch_neighs
  = Ok (batch_vals ++ map (fun x => fst (g x)) suf,
        batch_neighs ++ map (fun x => snd (g x)) suf).
Proof.
  induction suf as [|x suf IH]; intros pre bv bn Hg.
  - simpl. now rewrite !app_nil_r.
  - cbn [length seq batch_loop]. unfold query_rows at 1 2. cbn [fst snd].
    rewrite !nth_error_map, nth_error_app2, Nat.sub_diag by lia.
    cbn [nth_error option_map].
    rewrite Hg by now left. cbn [rbind].
    specialize (IH (pre ++ [x]) (bv ++ [fst (g x)]) (bn ++ [snd (g x)])).
    rewrite <- app_assoc, length_app, Nat.add_1_r in IH. cbn [app length] in IH.
    rewrite IH by (intros; apply Hg; now right).
    now rewrite <- !app_assoc.
Qed.

Lemma firstn_add {A} (a b : nat) (l : list A) :
  firstn (a + b) l = firstn a l ++ firstn b (skipn a l).
Proof.
  revert l. induction a as [|a IH]; intros [|y l]; simpl; auto.
  - now rewrite firstn_nil.
  - now rewrite IH.
Qed.

Lemma skipn_repeat {A} (z : A) (a n : nat) :
  skipn a (repeat z n) = repeat z (n - a).
Proof.
  revert n. induction a as [|a IH]; intros [|n]; simpl; auto.
Qed.

Lemma splice {A} (done vals : list A) (z : A) (n : nat) :
  (length vals <= n)%nat ->
  firstn (length done) (done ++ repeat z n) ++ vals
    ++ skipn (length done + length vals) (done ++ repeat z n)
  = (done ++ vals) ++ repeat z (n - length vals).
Proof.
  intros Hn.
  rewrite firstn_app, Nat.sub_diag, firstn_all, firstn_O, app_nil_r.
  rewrite skipn_app, skipn_all2 by lia.
  replace (length done + length vals - length done)%nat with (length vals) by lia.
  rewrite skipn_repeat. simpl. now rewrite app_assoc.
Qed.

Lemma writes_resultados_app tr tr' j :
  writes_resultados (tr ++ tr') j
  = (writes_resultados tr j + writes_resultados tr' j)%nat.
Proof. unfold writes_resultados. now rewrite filter_app, length_app. Qed.

Lemma writes_vizinhos_app tr tr' j :
  writes_vizinhos (tr ++ tr') j
  = (writes_vizinhos tr j + writes_vizinhos tr' j)%nat.
Proof. unfold writes_vizinhos. now rewrite filter_app, length_app. Qed.

Lemma interpolar_unbatched_app cfg est xs ys :
  interpolar_unbatched cfg est (xs ++ ys)
  = interpolar_unbatched cfg est xs ++ interpolar_unbatched cfg est ys.
Proof. apply map_app. Qed.

Lemma interpolar_unbatched_length cfg est xs :
  length (interpolar_unbatched cfg est xs) = length xs.
Proof. apply length_map. Qed.

Lemma batch_step cfg est grid i w :
  (0 < batch_size cfg)%Z -> (1 <= MAX_NEIGHBORS cfg)%Z -> (0 <= i)%Z ->
  let len := Z.of_nat (length grid) in
  filled cfg est grid (Z.to_nat (Z.min (i * batch_size cfg) len)) w ->
  exists c w',
    batch cfg (tree_of est) (valores est) grid (max_dist_m cfg) i w = (Ok c, w')
    /\ filled cfg est grid (Z.to_nat (Z.min ((i + 1) * batch_size cfg) len)) w'
    /\ (c = Break -> (len <= i * batch_size cfg)%Z).
Proof.
  intros Hbs Hk Hi len Hw. unfold batch. fold len.
  set (start := (i * batch_size cfg)%Z) in *.
  set (stop := Z.min ((i + 1) * batch_size cfg) len) in *.
  assert (Hstart : (0 <= start)%Z) by (subst start; nia).
  assert (Hnext : (start < (i + 1) * batch_size cfg)%Z) by (subst start; nia).
  destruct (start >=? stop)%Z eqn:E.
  - apply Z.geb_le in E.
    assert (Hend : (len <= start)%Z) by (subst stop; lia).
    exists Break, w. unfold ret. split; [reflexivity|]. split; [|auto].
    replace (Z.to_nat stop) with (Z.to_nat (Z.min start len)) by (subst stop; lia).
    exact Hw.
  - assert (Hlt : (start < stop)%Z) by (rewrite Z.geb_leb, Z.leb_gt in E; exact E).
    assert (Hstop : (stop <= len)%Z) by (subst stop; lia).
    replace (Z.min start len) with start in Hw by lia.
    destruct Hw as (Hr & Hv & Hwr & Hwv).
    set (xs := slice grid start stop).
    assert (Hxs : length xs = Z.to_nat (stop - start))
      by (apply slice_length; lia).
    assert (Hfirst : firstn (Z.to_nat stop) grid = firstn (Z.to_nat start) grid ++ xs).
    { replace (Z.to_nat stop) with (Z.to_nat start + (Z.to_nat stop - Z.to_nat start))%nat by lia.
      apply firstn_add. }
    assert (Hdone : length (firstn (Z.to_nat start) grid) = Z.to_nat start)
      by (rewrite length_firstn; lia).
    pose proof (batch_loop_spec cfg est (MAX_NEIGHBORS cfg) (max_dist_m cfg)
                  (fun x => point_value cfg (valores est) (neighbors cfg est x))
                  xs [] [] []) as Hloop.
    unfold bind, emit, lift, set_resultados, set_vizinhos, slice_assign, ret, query.
    destruct (Z.ltb_spec (MAX_NEIGHBORS cfg) 1) as [Hk'|_]; [lia|].
    unfold query_rows in *. cbn [fst snd app length] in Hloop.
    cbv zeta. cbn beta iota. fold xs.
    rewrite Hloop by (intros; apply interp_point_query).
    clear Hloop.
    assert (Hl1 : forall (A : Type) (done : list A) (z : A),
               length done = Z.to_nat start ->
               length (slice (done ++ repeat z (length grid - Z.to_nat start)) start stop)
               = length xs).
    { intros A done z Hd. rewrite slice_length; try lia.
      rewrite length_app, repeat_length. lia. }
    cbn [resultados vizinhos_count trace fst snd app].
    rewrite Hr, length_map, Hl1, Nat.eqb_refl
      by (rewrite length_map, interpolar_unbatched_length; exact Hdone).
    cbn [resultados vizinhos_count trace fst snd app].
    rewrite Hv, length_map, Hl1, Nat.eqb_refl
      by (rewrite length_map, interpolar_unbatched_length; exact Hdone).
    eexists _, _. split; [reflexivity|]. split; [|discriminate].
    unfold filled. cbn [resultados vizinhos_count trace].
    rewrite Hfirst, interpolar_unbatched_app, !map_app.
    repeat split.
    + set (done := map fst (interpolar_unbatched cfg est (firstn (Z.to_nat start) grid))).
      set (vals := map _ xs).
      assert (Hd : length done = Z.to_nat start)
        by (subst done; rewrite length_map, interpolar_unbatched_length; exact Hdone).
      assert (Hvl : length vals = length xs) by (subst vals; apply length_map).
      replace (Z.to_nat start) with (length done) by exact Hd.
      replace (length xs) with (length vals) by exact Hvl.
      rewrite splice by lia. unfold interpolar_unbatched. rewrite map_map.
      f_equal. f_equal. lia.
    + set (done := map snd (interpolar_unbatched cfg est (firstn (Z.to_nat start) grid))).
      set (vals := map _ xs).
      assert (Hd : length done = Z.to_nat start)
        by (subst done; rewrite length_map, interpolar_unbatched_length; exact Hdone).
      assert (Hvl : length vals = length xs) by (subst vals; apply length_map).
      replace (Z.to_nat start) with (length done) by exact Hd.
      replace (length xs) with (length vals) by exact Hvl.
      rewrite splice by lia. unfold interpolar_unbatched. rewrite map_map.
      f_equal. f_equal. lia.
    + intros j. rewrite !writes_resultados_app, Hwr. unfold writes_resultados.
      cbn [filter length Nat.add]. unfold covers.
      destruct (Nat.ltb_spec j (Z.to_nat start));
      destruct (Nat.ltb_spec j (Z.to_nat stop));
      destruct (Z.leb_spec start (Z.of_nat j));
      destruct (Z.ltb_spec (Z.of_nat j) stop); cbn [andb length]; lia.
    + intros j. rewrite !writes_vizinhos_app, Hwv. unfold writes_vizinhos.
      cbn [filter length Nat.add]. unfold covers.
      destruct (Nat.ltb_spec j (Z.to_nat start));
      destruct (Nat.ltb_spec j (Z.to_nat stop));
      destruct (Z.leb_spec start (Z.of_nat j));
      destruct (Z.ltb_spec (Z.of_nat j) stop); cbn [andb length]; lia.
Qed.

(** ** The loop over the batches *)

Lemma for_each_batches cfg est grid :
  (0 < batch_size cfg)%Z -> (1 <= MAX_NEIGHBORS cfg)%Z ->
  let len := Z.of_nat (length grid) in
  let pos a := Z.to_nat (Z.min (Z.of_nat a * batch_size cfg) len) in
  forall m a w,
    filled cfg est grid (pos a) w ->
    exists w',
      for_each (map Z.of_nat (seq a m))
        (batch cfg (tree_of est) (valores est) grid (max_dist_m cfg)) w
      = (Ok tt, w')
      /\ filled cfg est grid (pos (a + m)%nat) w'.
Proof.
  intros Hbs Hk len pos. induction m as [|m IH]; intros a w Hw.
  - exists w. rewrite Nat.add_0_r. now split.
  - cbn [seq map for_each]. unfold bind.
    destruct (batch_step cfg est grid (Z.of_nat a) w Hbs Hk (Zle_0_nat a) Hw)
      as (c & w1 & -> & Hw1 & Hc).
    replace (Z.of_nat a + 1)%Z with (Z.of_nat (S a)) in Hw1 by lia.
    destruct c.
    + destruct (IH (S a) w1 Hw1) as (w' & E & Hw').
      exists w'. split; [exact E|].
      now replace (a + S m)%nat with (S a + m)%nat by lia.
    + exists w1. split; [reflexivity|].
      specialize (Hc eq_refl). fold len in Hc, Hw1.
      replace (pos (a + S m)%nat) with (pos (S a)); [exact Hw1|].
      subst pos. cbv beta. f_equal. nia.
Qed.

Lemma num_batches_cover (len bs : Z) :
  (0 <= len)%Z -> (0 < bs)%Z ->
  (0 < len / bs + 1)%Z /\ (len < (len / bs + 1) * bs)%Z.
Proof.
  intros Hlen Hbs.
  pose proof (Z.div_pos len bs Hlen Hbs).
  pose proof (Z.mod_pos_bound len bs Hbs).
  pose proof (Z.div_mod len bs). lia.
Qed.

(** A run over a non-empty station set, with a positive batch size and at
    least one neighbour asked for, ends normally with every slot filled. *)
Lemma run_filled cfg est grid :
  est <> [] -> (0 < batch_size cfg)%Z -> (1 <= MAX_NEIGHBORS cfg)%Z ->
  exists w, run cfg est grid = (Ok tt, w)
            /\ filled cfg est grid (length grid) w.
Proof.
  intros Hest Hbs Hk. unfold run, interpolar.
  destruct est as [|s est']; [congruence|].
  set (est := s :: est') in *.
  unfold bind at 1. unfold lift at 1. cbn [map cKDTree_init].
  change {| data := geometry s :: map geometry est' |} with (tree_of est).
  change (dry_season_length s :: map dry_season_length est') with (valores est).
  unfold bind at 1, alloc_resultados. unfold bind at 1, alloc_vizinhos.
  unfold bind at 1, lift, floordiv.
  destruct (Z.eqb_spec (batch_size cfg) 0) as [E|_]; [lia|].
  cbn [resultados vizinhos_count trace world0].
  destruct (num_batches_cover (Z.of_nat (length grid)) (batch_size cfg))
    as [Hnum Hcover]; [lia | exact Hbs |].
  set (num_batches := (Z.of_nat (length grid) / batch_size cfg + 1)%Z) in *.
  unfold range.
  destruct (for_each_batches cfg est grid Hbs Hk (Z.to_nat num_batches) 0%nat
              {| resultados := np.zeros 0 (length grid);
                 vizinhos_count := np.zeros 0%Z (length grid);
                 trace := [] |}) as (w & E & Hw).
  - cbn [Z.of_nat Z.mul Z.min Z.to_nat]. 
    replace (Z.to_nat (Z.min 0 (Z.of_nat (length grid)))) with 0%nat by lia.
    unfold filled. cbn [firstn interpolar_unbatched map app resultados vizinhos_count trace].
    rewrite Nat.sub_0_r. repeat split; auto.
  - exists w. split; [exact E|].
    replace (Z.to_nat (Z.min (Z.of_nat (0 + Z.to_nat num_batches) * batch_size cfg)
                        (Z.of_nat (length grid))))
      with (length grid) in Hw; [exact Hw|].
    rewrite Nat.add_0_l, Z2Nat.id by lia. lia.
Qed.

Lemma filled_output cfg est grid w :
  filled cfg est grid (length grid) w ->
  resultados w = map fst (interpolar_unbatched cfg est grid)
  /\ vizinhos_count w = map snd (interpolar_unbatched cfg est grid)
  /\ output w = interpolar_unbatched cfg est grid.
Proof.
  intros (Hr & Hv & _). rewrite firstn_all, Nat.sub_diag, app_nil_r in Hr, Hv.
  unfold output. rewrite Hr, Hv. repeat split. apply combine_fst_snd.
Qed.

(** ** The weights *)







(** ** The run as a whole *)

Lemma run_unbatched cfg est grid :
  est <> [] -> (0 < batch_size cfg)%Z -> (1 <= MAX_NEIGHBORS cfg)%Z ->
  exists w, run cfg est grid = (Ok tt, w)
            /\ resultados w = map fst (interpolar_unbatched cfg est grid)
            /\ vizinhos_count w = map snd (interpolar_unbatched cfg est grid)
            /\ output w = interpolar_unbatched cfg est grid.
Proof.
  intros Hest Hbs Hk.
  destruct (run_filled cfg est grid Hest Hbs Hk) as (w & E & Hw).
  exists w. split; [exact E|]. now apply filled_output.
Qed.

Lemma run_point cfg est grid j x :
  est <> [] -> (0 < batch_size cfg)%Z -> (1 <= MAX_NEIGHBORS cfg)%Z ->
  nth_error grid j = Some x ->
  exists w, run cfg est grid = (Ok tt, w)
            /\ nth_error (output w) j
               = Some (point_value cfg (valores est) (neighbors cfg est x)).
Proof.
  intros Hest Hbs Hk Hx.
  destruct (run_unbatched cfg est grid Hest Hbs Hk) as (w & E & _ & _ & Ho).
  exists w. split; [exact E|]. rewrite Ho. unfold interpolar_unbatched.
  now rewrite nth_error_map, Hx.
Qed.

Lemma run_no_stations cfg grid : run cfg [] grid = (Raise ValueError, world0).
Proof. reflexivity. Qed.

Lemma run_batch_size_zero cfg est grid :
  est <> [] -> batch_size cfg = 0%Z ->
  fst (run cfg est grid) = Raise ZeroDivisionError.
Proof.
  intros Hest Hbs. destruct est as [|s est]; [congruence|].
  unfold run, interpolar, bind, lift, alloc_resultados, alloc_vizinhos, floordiv.
  cbn [map cKDTree_init]. now rewrite Hbs.
Qed.

Lemma mean_times_length (a : list Q) :
  a <> [] -> np.mean a * inject_Z (Z.of_nat (length a)) == np.sum a.
Proof.
  intros Ha. unfold np.mean. field.
  destruct a; [congruence|]. simpl length.
  intros H. unfold Qeq in H. simpl in H. lia.
Qed.

Lemma run_empty_grid cfg est :
  est <> [] -> batch_size cfg <> 0%Z -> run cfg est [] = (Ok tt, world0).
Proof.
  intros Hest Hbs. destruct est as [|s est]; [congruence|].
  unfold run, interpolar, bind, lift, alloc_resultados, alloc_vizinhos, floordiv.
  cbn [map cKDTree_init length Z.of_nat].
  destruct (Z.eqb_spec (batch_size cfg) 0) as [E|_]; [congruence|].
  rewrite Z.div_0_l by exact Hbs.
  change (range (0 + 1)) with [0%Z]. cbn [for_each].
  unfold bind at 1. unfold batch. cbn [length Z.of_nat]. rewrite Z.mul_0_l.
  destruct (0 >=? Z.min ((0 + 1) * batch_size cfg) 0)%Z eqn:E; [reflexivity|].
  rewrite Z.geb_leb, Z.leb_gt in E. lia.
Qed.

(** Asking the index for fewer than one neighbour stops the run at the first
    query, with both buffers still as allocated. *)
Lemma run_no_neighbors_asked cfg est grid :
  est <> [] -> grid <> [] -> (0 < batch_size cfg)%Z ->
  (MAX_NEIGHBORS cfg < 1)%Z ->
  fst (run cfg est grid) = Raise ValueError
  /\ resultados (snd (run cfg est grid)) = np.zeros 0 (length grid)
  /\ vizinhos_count (snd (run cfg est grid)) = np.zeros 0%Z (length grid).
Proof.
  intros Hest Hgrid Hbs Hk. destruct est as [|s est]; [congruence|].
  assert (Hlen : (0 < Z.of_nat (length grid))%Z)
    by (destruct grid; [congruence | simpl; lia]).
  unfold run, interpolar, bind, lift, alloc_resultados, alloc_vizinhos, floordiv.
  cbn [map cKDTree_init].
  destruct (Z.eqb_spec (batch_size cfg) 0) as [E|_]; [lia|].
  destruct (num_batches_cover (Z.of_nat (length grid)) (batch_size cfg))
    as [Hnum _]; [lia | exact Hbs |].
  unfold range.
  destruct (Z.to_nat (Z.of_nat (length grid) / batch_size cfg + 1)) as [|m] eqn:Em;
    [lia|].
  cbn [seq map for_each Z.of_nat]. unfold bind at 1. unfold batch.
  rewrite Z.mul_0_l.
  destruct (0 >=? Z.min ((0 + 1) * batch_size cfg) (Z.of_nat (length grid)))%Z eqn:E.
  { apply Z.geb_le in E. lia. }
  unfold bind, emit, lift, query.
  destruct (Z.ltb_spec (MAX_NEIGHBORS cfg) 1) as [_|Hk']; [|lia].
  cbn. repeat split.
Qed.

(** ** The claims *)

(** C1.  A grid point whose query leaves fewer than [MIN_NEIGHBORS] valid
    neighbours gets the arithmetic mean of all station values (their sum over
    their number, whatever the neighbours were) and neighbour count 0. *)
Theorem fallback_is_global_mean cfg est grid j x :
  est <> [] -> (0 < batch_size cfg)%Z -> (1 <= MAX_NEIGHBORS cfg)%Z ->
  nth_error grid j = Some x ->
  (Z.of_nat (length (neighbors cfg est x)) < MIN_NEIGHBORS cfg)%Z ->
  exists w,
    run cfg est grid = (Ok tt, w)
    /\ nth_error (output w) j = Some (np.mean (valores est), 0%Z)
    /\ np.mean (valores est) * inject_Z (Z.of_nat (length est))
       == np.sum (map dry_season_length est).
Proof.
  intros Hest Hbs Hk Hx Hfew.
  destruct (run_point cfg est grid j x Hest Hbs Hk Hx) as (w & E & Hj).
  exists w. split; [exact E|]. split.
  - rewrite Hj. unfold point_value.
    apply Z.ltb_lt in Hfew. now rewrite Hfew.
  - replace (length est) with (length (valores est))
      by (unfold valores; apply length_map).
    apply mean_times_length. unfold valores.
    destruct est; [congruence | discriminate].
Qed.

(** C3 (as amended).  For batch sizes of at least one the outcome of a run
    does not depend on the batch size: both runs end the same way and leave
    the same buffers, which after a normal end are those of the non-batched
    map over the grid.  In particular, on a non-empty grid, batch size 1 and
    batch size [len(grid)] give equal output sequences. *)
Theorem batch_size_invariance cfg est grid b1 b2 :
  (0 < b1)%Z -> (0 < b2)%Z ->
  let r1 := run (with_batch_size cfg b1) est grid in
  let r2 := run (with_batch_size cfg b2) est grid in
  (fst r1 = fst r2
   /\ resultados (snd r1) = resultados (snd r2)
   /\ vizinhos_count (snd r1) = vizinhos_count (snd r2)
   /\ output (snd r1) = output (snd r2))
  /\ (fst r1 = Ok tt -> output (snd r1) = interpolar_unbatched cfg est grid)
  /\ (grid <> [] ->
      output (snd (run (with_batch_size cfg 1) est grid))
      = output (snd (run (with_batch_size cfg (Z.of_nat (length grid))) est grid))).
Proof.
  intros H1 H2.
  assert (Hrun : forall b, (0 < b)%Z ->
            (est = [] /\ run (with_batch_size cfg b) est grid
                         = (Raise ValueError, world0))
            \/ (est <> [] /\ (MAX_NEIGHBORS cfg < 1)%Z /\ grid = []
                /\ run (with_batch_size cfg b) est grid = (Ok tt, world0))
            \/ (est <> [] /\ (MAX_NEIGHBORS cfg < 1)%Z /\ grid <> []
                /\ fst (run (with_batch_size cfg b) est grid) = Raise ValueError
                /\ resultados (snd (run (with_batch_size cfg b) est grid))
                   = np.zeros 0 (length grid)
                /\ vizinhos_count (snd (run (with_batch_size cfg b) est grid))
                   = np.zeros 0%Z (length grid))
            \/ (est <> [] /\ (1 <= MAX_NEIGHBORS cfg)%Z
                /\ fst (run (with_batch_size cfg b) est grid) = Ok tt
                /\ resultados (snd (run (with_batch_size cfg b) est grid))
                   = map fst (interpolar_unbatched cfg est grid)
                /\ vizinhos_count (snd (run (with_batch_size cfg b) est grid))
                   = map snd (interpolar_unbatched cfg est grid))).
  { intros b Hb.
    destruct est as [|s est']; [left; now rewrite run_no_stations|].
    set (est := s :: est') in *.
    assert (Hest : est <> []) by discriminate.
    right. destruct (Z.ltb_spec (MAX_NEIGHBORS cfg) 1) as [Hk|Hk].
    - destruct grid as [|x grid'].
      + left. repeat split; auto. apply run_empty_grid; [exact Hest|].
        simpl. lia.
      + right. left. split; [exact Hest|]. split; [exact Hk|].
        split; [discriminate|].
        apply (run_no_neighbors_asked (with_batch_size cfg b) est (x :: grid'));
          auto; discriminate.
    - right. right.
      destruct (run_unbatched (with_batch_size cfg b) est grid Hest Hb Hk)
        as (w & E & Hr & Hv & _).
      rewrite E. simpl. auto. }
  assert (Hsame : forall b b', (0 < b)%Z -> (0 < b')%Z ->
            fst (run (with_batch_size cfg b) est grid)
            = fst (run (with_batch_size cfg b') est grid)
            /\ resultados (snd (run (with_batch_size cfg b) est grid))
               = resultados (snd (run (with_batch_size cfg b') est grid))
            /\ vizinhos_count (snd (run (with_batch_size cfg b) est grid))
               = vizinhos_count (snd (run (with_batch_size cfg b') est grid))
            /\ output (snd (run (with_batch_size cfg b) est grid))
               = output (snd (run (with_batch_size cfg b') est grid))).
  { intros b b' Hb Hb'.
    assert (Hout : fst (run (with_batch_size cfg b) est grid)
                   = fst (run (with_batch_size cfg b') est grid)
                   /\ resultados (snd (run (with_batch_size cfg b) est grid))
                      = resultados (snd (run (with_batch_size cfg b') est grid))
                   /\ vizinhos_count (snd (run (with_batch_size cfg b) est grid))
                      = vizinhos_count (snd (run (with_batch_size cfg b') est grid))).
    { destruct (Hrun b Hb) as [(Ha & E)|[(Ha & Hk & Hg & E)|[(Ha & Hk & Hg & E & R & V)
                                                      |(Ha & Hk & E & R & V)]]];
      destruct (Hrun b' Hb') as [(Ha' & E')|[(Ha' & Hk' & Hg' & E')
                                       |[(Ha' & Hk' & Hg' & E' & R' & V')
                                        |(Ha' & Hk' & E' & R' & V')]]];
      try congruence; try lia; repeat split; congruence. }
    destruct Hout as (Hf & Hr & Hv). unfold output. rewrite Hr, Hv. auto. }
  intros r1 r2. split; [apply Hsame; assumption|]. split.
  - intros Hok. subst r1.
    destruct (Hrun b1 H1) as [(Ha & E)|[(Ha & Hk & Hg & E)|[(Ha & Hk & Hg & E & R & V)
                                                    |(Ha & Hk & E & R & V)]]].
    + rewrite E in Hok. discriminate.
    + subst grid. rewrite E. reflexivity.
    + congruence.
    + unfold output. rewrite R, V. apply combine_fst_snd.
  - intros Hgrid. apply Hsame; [reflexivity|].
    destruct grid; [congruence | simpl; lia].
Qed.

(** C5.  Over a non-empty station set every grid point gets exactly one
    pair: the run ends normally, both buffers have the length of the grid,
    each slot of each buffer is assigned exactly once and no slot outside the
    grid is assigned, whether or not the batch size divides the length of the
    grid; and the computation of every single point returns a value. *)
Theorem every_slot_written_once cfg est grid :
  est <> [] -> (0 < batch_size cfg)%Z -> (1 <= MAX_NEIGHBORS cfg)%Z ->
  exists w,
    run cfg est grid = (Ok tt, w)
    /\ length (resultados w) = length grid
    /\ length (vizinhos_count w) = length grid
    /\ length (output w) = length grid
    /\ (forall j, (j < length grid)%nat ->
          writes_resultados (trace w) j = 1%nat
          /\ writes_vizinhos (trace w) j = 1%nat)
    /\ (forall j, (length grid <= j)%nat ->
          writes_resultados (trace w) j = 0%nat
          /\ writes_vizinhos (trace w) j = 0%nat)
    /\ (forall j x, nth_error grid j = Some x ->
          exists v,
            interp_point cfg (valores est)
              (fst (query_point (tree_of est) x (MAX_NEIGHBORS cfg) (max_dist_m cfg)))
              (snd (query_point (tree_of est) x (MAX_NEIGHBORS cfg) (max_dist_m cfg)))
            = Ok v
            /\ nth_error (output w) j = Some v).
Proof.
  intros Hest Hbs Hk.
  destruct (run_filled cfg est grid Hest Hbs Hk) as (w & E & Hw).
  destruct (filled_output cfg est grid w Hw) as (Hr & Hv & Ho).
  destruct Hw as (_ & _ & Hwr & Hwv).
  exists w. split; [exact E|].
  rewrite Hr, Hv, Ho, !length_map, interpolar_unbatched_length.
  repeat split; auto.
  - rewrite Hwr. apply Nat.ltb_lt in H. now rewrite H.
  - rewrite Hwv. apply Nat.ltb_lt in H. now rewrite H.
  - rewrite Hwr. apply Nat.ltb_ge in H. now rewrite H.
  - rewrite Hwv. apply Nat.ltb_ge in H. now rewrite H.
  - intros j x Hx. eexists. split; [apply interp_point_query|].
    unfold interpolar_unbatched. now rewrite nth_error_map, Hx.
Qed.

(** C6 (as amended).  With no station the construction of the index fails
    (the [ValueError] of [cKDTree] for an empty coordinate array): the run
    ends with that exception, its log holds no query and no buffer has been
    allocated. *)
Theorem empty_stations_rejected cfg grid :
  cKDTree_init (map geometry []) = Raise ValueError
  /\ fst (run cfg [] grid) = Raise ValueError
  /\ filter is_query (trace (snd (run cfg [] grid))) = []
  /\ snd (run cfg [] grid) = world0.
Proof. rewrite run_no_stations. repeat split. Qed.

(** C9.  An empty grid is a valid input: over a non-empty station set the run
    ends normally, leaves both buffers empty and asks the index nothing. *)
Theorem empty_grid_is_valid cfg est :
  est <> [] -> batch_size cfg <> 0%Z ->
  exists w,
    run cfg est [] = (Ok tt, w)
    /\ output w = []
    /\ resultados w = [] /\ vizinhos_count w = [] /\ trace w = [].
Proof.
  intros Hest Hbs. exists world0. split; [|repeat split].
  now apply run_empty_grid.
Qed.

(** C10.  Every recorded neighbour count is either 0 or lies between
    [MIN_NEIGHBORS] and the smaller of [MAX_NEIGHBORS] and the number of
    stations. *)
Theorem neighbor_count_range cfg est grid :
  est <> [] -> (0 < batch_size cfg)%Z -> (1 <= MAX_NEIGHBORS cfg)%Z ->
  exists w,
    run cfg est grid = (Ok tt, w)
    /\ forall j n, nth_error (vizinhos_count w) j = Some n ->
         n = 0%Z
         \/ (MIN_NEIGHBORS cfg <= n
             <= Z.min (MAX_NEIGHBORS cfg) (Z.of_nat (length est)))%Z.
Proof.
  intros Hest Hbs Hk.
  destruct (run_unbatched cfg est grid Hest Hbs Hk) as (w & E & _ & Hv & _).
  exists w. split; [exact E|]. intros j n Hn.
  rewrite Hv in Hn. unfold interpolar_unbatched in Hn.
  rewrite map_map, nth_error_map in Hn.
  destruct (nth_error grid j) as [x|]; [|discriminate].
  simpl in Hn. inversion Hn as [Hn']. clear Hn. unfold point_value.
  destruct (Z.ltb_spec (Z.of_nat (length (neighbors cfg est x))) (MIN_NEIGHBORS cfg));
    [now left | right].
  simpl. split; [assumption|].
  rewrite neighbors_length.
  assert (stations_in_range cfg est x <= length est)%nat
    by apply filter_length_le.
  lia.
Qed.

(** C7 (as amended).  The engine checks no configuration.  Whatever the
    power and the minimum, and also when one of the three constraints
    ([POWER > 0], [MIN_NEIGHBORS >= 1], [MAX_NEIGHBORS >= MIN_NEIGHBORS]) is
    broken, a run with a positive batch size and at least one neighbour asked
    for ends normally with one pair per grid point; when
    [MAX_NEIGHBORS < MIN_NEIGHBORS] every pair is the fallback.  The constants
    of the script keep the three constraints. *)
Theorem no_configuration_check cfg est grid :
  est <> [] -> (0 < batch_size cfg)%Z -> (1 <= MAX_NEIGHBORS cfg)%Z ->
  (POWER cfg <= 0 \/ MIN_NEIGHBORS cfg < 1
   \/ MAX_NEIGHBORS cfg < MIN_NEIGHBORS cfg)%Z ->
  (exists w,
     run cfg est grid = (Ok tt, w)
     /\ length (output w) = length grid
     /\ ((MAX_NEIGHBORS cfg < MIN_NEIGHBORS cfg)%Z ->
         forall j, (j < length grid)%nat ->
           nth_error (output w) j = Some (np.mean (valores est), 0%Z)))
  /\ (0 < POWER default_config /\ 1 <= MIN_NEIGHBORS default_config
      /\ MIN_NEIGHBORS default_config <= MAX_NEIGHBORS default_config)%Z.
Proof.
  intros Hest Hbs Hk _. split; [|cbn; lia].
  destruct (run_unbatched cfg est grid Hest Hbs Hk) as (w & E & _ & _ & Ho).
  exists w. split; [exact E|]. rewrite Ho, interpolar_unbatched_length.
  split; [reflexivity|]. intros Hlt j Hj.
  unfold interpolar_unbatched. rewrite nth_error_map.
  destruct (nth_error grid j) as [x|] eqn:Hx.
  - simpl. f_equal. unfold point_value.
    destruct (Z.ltb_spec (Z.of_nat (length (neighbors cfg est x))) (MIN_NEIGHBORS cfg));
      [reflexivity|].
    rewrite neighbors_length in *. lia.
  - apply nth_error_None in Hx. lia.
Qed.

(** C4.  The row the query returns for a point has exactly [k] slots: the
    hits first, then padding of distance [inf] and index [n].  The validity
    filter of the loop body keeps of it the arrays [d] and [ix], and of these:
    they have the same length, at most [k]; [d] rises; no index occurs twice
    in [ix]; position by position, [ix] names a real station (never the
    padding index [n]) and [d] holds its distance to the point, which is
    below the cutoff; no station at or beyond the cutoff is in [ix]; no
    station in range that was left out is nearer than one returned; when no
    more than [k] stations are in range all of them are returned; and the raw
    row is [d] and [ix] followed by the padding.  All of this holds in
    whatever order the index lists stations at equal distance.  Of any row
    at all, the filter keeps the slots with a finite distance, each distance
    with the index of its own slot. *)
Theorem valid_neighbors_contract (t : cKDTree) (x : Point) (k : Z) (ub : Q) :
  let dists_j := fst (query_point t x k ub) in
  let idxs_j := snd (query_point t x k ub) in
  let valid := ne_inf dists_j in
  let d := finite_part dists_j in
  let ix := select idxs_j valid in
  let reach := length (filter (fun p => Qlt_bool (distance x p) ub) (data t)) in
  (length dists_j = Z.to_nat k /\ length idxs_j = Z.to_nat k)
  /\ length d = length ix
  /\ (length d <= Z.to_nat k)%nat
  /\ StronglySorted Qle d
  /\ NoDup ix
  /\ Forall2 (fun di i =>
                (i < tree_n t)%nat
                /\ exists p, nth_error (data t) i = Some p
                             /\ di = distance x p /\ di < ub) d ix
  /\ (forall i p, nth_error (data t) i = Some p -> ub <= distance x p ->
        ~ In i ix)
  /\ (forall di i p, In di d -> nth_error (data t) i = Some p ->
        distance x p < ub -> ~ In i ix -> di <= distance x p)
  /\ length d = Nat.min (Z.to_nat k) reach
  /\ ((reach <= Z.to_nat k)%nat ->
        forall i p, nth_error (data t) i = Some p -> distance x p < ub ->
          In i ix)
  /\ dists_j = map Fin d ++ repeat Inf (Z.to_nat k - length d)
  /\ idxs_j = ix ++ repeat (tree_n t) (Z.to_nat k - length d)
  /\ (forall (row : list xfloat) (idx : list nat),
        length row = length idx ->
        length (finite_part row) = length (select idx (ne_inf row))
        /\ combine (finite_part row) (select idx (ne_inf row))
           = flat_map (fun c => match fst c with
                                | Fin q => [(q, snd c)]
                                | Inf => []
                                end) (combine row idx)).
Proof.
  intros dists_j idxs_j valid d ix reach.
  pose proof (query_point_length t x k ub) as Hlen.
  subst dists_j idxs_j valid d ix reach.
  unfold query_point in *. cbn [fst snd] in *.
  set (hits := firstn (Z.to_nat k) (in_range t x k ub)) in *.
  rewrite finite_part_hits, select_hits.
  assert (Hin : forall c, In c hits ->
            exists p, nth_error (data t) (snd c) = Some p
                      /\ fst c = distance x p /\ fst c < ub).
  { intros [di i] H. now apply in_firstn, in_in_range in H. }
  assert (Hsplit : in_range t x k ub = hits ++ skipn (Z.to_nat k) (in_range t x k ub))
    by (symmetry; apply firstn_skipn).
  assert (Hnodup : NoDup (map snd hits)).
  { pose proof (in_range_nodup t x k ub) as H.
    rewrite Hsplit, map_app in H. now apply NoDup_app_remove_r in H. }
  split; [exact Hlen|].
  split; [now rewrite !length_map|].
  split; [rewrite length_map; apply firstn_le_length|].
  split; [apply sorted_map_fst, StronglySorted_firstn, sort_by_dist_sorted|].
  split; [exact Hnodup|].
  split.
  { apply Forall2_fst_snd. intros c Hc. destruct (Hin c Hc) as (p & Hp & Hd & Hlt).
    split; [|eauto]. apply nth_error_Some. unfold tree_n. congruence. }
  split.
  { intros i p Hp Hfar H. apply in_map_iff in H. destruct H as (c & <- & Hc).
    destruct (Hin c Hc) as (p' & Hp' & Hd & Hlt).
    assert (p' = p) by congruence. subst p'. rewrite Hd in Hlt.
    apply (Qlt_irrefl ub). eapply Qle_lt_trans; eauto. }
  split.
  { intros di i p Hdi Hp Hlt Hout. apply in_map_iff in Hdi.
    destruct Hdi as (c & <- & Hc).
    assert (Hc' : In (distance x p, i) (in_range t x k ub))
      by (apply in_in_range; eauto).
    rewrite Hsplit in Hc'. apply in_app_or in Hc'. destruct Hc' as [Hc'|Hc'].
    - exfalso. apply Hout. apply in_map_iff. now exists (distance x p, i).
    - apply (sorted_app_cross by_dist hits (skipn (Z.to_nat k) (in_range t x k ub)))
        with (a := c) (b := (distance x p, i)); auto.
      rewrite <- Hsplit. apply sort_by_dist_sorted. }
  split.
  { rewrite length_map. unfold hits. now rewrite length_firstn, in_range_length. }
  split.
  { intros Hall i p Hp Hlt. unfold hits.
    rewrite firstn_all2 by (now rewrite in_range_length).
    apply in_map_iff. exists (distance x p, i). split; [reflexivity|].
    apply in_in_range. eauto. }
  rewrite !length_map, map_map.
  split; [reflexivity|]. split; [reflexivity|]. apply filter_keeps_finite.
Qed.

Lemma neighbors_dist_nonneg cfg est x :
  Forall (fun di => 0 <= di) (map fst (neighbors cfg est x)).
Proof.
  apply Forall_forall. intros d Hd. apply in_map_iff in Hd.
  destruct Hd as ([d' i] & <- & H). unfold neighbors in H.
  rewrite valid_neighbors_firstn in H. apply in_firstn, in_in_range in H.
  destruct H as (p & _ & -> & _). apply distance_nonneg.
Qed.

Lemma neighbors_in_reach cfg est x :
  Forall (fun di => di < max_dist_m cfg) (map fst (neighbors cfg est x)).
Proof.
  apply Forall_forall. intros d Hd. apply in_map_iff in Hd.
  destruct Hd as ([d' i] & <- & H). unfold neighbors in H.
  rewrite valid_neighbors_firstn in H. apply in_firstn, in_in_range in H.
  destruct H as (p & _ & _ & Hlt). exact Hlt.
Qed.

Lemma values_at_stations est (ix : list nat) :
  (forall i, In i ix -> (i < length est)%nat) ->
  Forall2 (fun i v => exists st, nth_error est i = Some st
                                 /\ v = dry_season_length st)
    ix (values_at (valores est) ix).
Proof.
  induction ix as [|i ix IH]; intros Hix; cbn; constructor.
  - destruct (nth_error est i) as [st|] eqn:E.
    + exists st. split; [reflexivity|]. unfold valores.
      apply nth_error_nth. now rewrite nth_error_map, E.
    + apply nth_error_None in E. specialize (Hix i (or_introl eq_refl)). lia.
  - apply IH. intros i' Hi'. apply Hix. now right.
Qed.

(** C2 (as amended).  A grid point with at least [MIN_NEIGHBORS] stations
    closer than the cutoff (under a configuration with
    [1 <= MIN_NEIGHBORS <= MAX_NEIGHBORS]) takes the IDW branch.  With [d] and
    [ix] the distances and indices the validity filter keeps, the slot of the
    point receives the inner product of the weights [1 / (d_i + eps) ^ POWER],
    each divided by their sum, with the values of the stations [ix] names;
    the count is the number of these neighbours, the smaller of
    [MAX_NEIGHBORS] and the number of stations closer than the cutoff; every
    distance used is at least 0 and below the cutoff.  The statement says
    which operations produce the stored number, not what they round to. *)
Theorem idw_estimate_stored cfg est grid j x :
  est <> [] -> (0 < batch_size cfg)%Z ->
  (1 <= MIN_NEIGHBORS cfg)%Z -> (MIN_NEIGHBORS cfg <= MAX_NEIGHBORS cfg)%Z ->
  nth_error grid j = Some x ->
  (MIN_NEIGHBORS cfg <= Z.of_nat (stations_in_range cfg est x))%Z ->
  let row := query_point (tree_of est) x (MAX_NEIGHBORS cfg) (max_dist_m cfg) in
  let d := finite_part (fst row) in
  let ix := select (snd row) (ne_inf (fst row)) in
  let w := map (fun di => 1 / (di + eps) ^ POWER cfg) d in
  let weights := map (fun wi => wi / np.sum w) w in
  exists wd vals,
    run cfg est grid = (Ok tt, wd)
    /\ take (valores est) ix = Ok vals
    /\ Forall2 (fun i v => exists st, nth_error est i = Some st
                                      /\ v = dry_season_length st) ix vals
    /\ np.dot weights vals = Ok (np.inner weights vals)
    /\ nth_error (output wd) j
       = Some (np.inner weights vals, Z.of_nat (length d))
    /\ length d = Nat.min (Z.to_nat (MAX_NEIGHBORS cfg))
                    (stations_in_range cfg est x)
    /\ (MIN_NEIGHBORS cfg <= Z.of_nat (length d))%Z
    /\ Forall (fun di => 0 <= di /\ di < max_dist_m cfg) d.
Proof.
  intros Hest Hbs Hmin Hmax Hx Hin row d ix w weights.
  assert (Hk : (1 <= MAX_NEIGHBORS cfg)%Z) by lia.
  destruct (run_point cfg est grid j x Hest Hbs Hk Hx) as (wd & E & Hj).
  pose proof (neighbors_length cfg est x) as Hlen.
  pose proof (neighbors_index cfg est x) as Hix.
  pose proof (neighbors_dist_nonneg cfg est x) as Hnn.
  pose proof (neighbors_in_reach cfg est x) as Hreach.
  assert (Ed : d = map fst (neighbors cfg est x)).
  { subst d row. unfold neighbors. rewrite valid_neighbors_firstn.
    unfold query_point. cbn [fst]. apply finite_part_hits. }
  assert (Ei : ix = map snd (neighbors cfg est x)).
  { subst ix row. unfold neighbors. rewrite valid_neighbors_firstn.
    unfold query_point. cbn [fst snd]. apply select_hits. }
  subst weights w. rewrite Ed, Ei. clear Ed Ei d ix row.
  set (nb := neighbors cfg est x) in *.
  assert (Hvalid : forall i, In i (map snd nb) -> (i < length est)%nat).
  { intros i Hi. apply in_map_iff in Hi. destruct Hi as ([di i'] & <- & Hi).
    eapply Hix; eauto. }
  exists wd, (values_at (valores est) (map snd nb)).
  split; [exact E|]. split.
  { apply take_values. unfold valores. rewrite length_map. exact Hvalid. }
  split; [now apply values_at_stations|]. split.
  { unfold np.dot, values_at. now rewrite !length_map, Nat.eqb_refl. }
  split.
  { rewrite Hj. unfold point_value.
    destruct (Z.ltb_spec (Z.of_nat (length nb)) (MIN_NEIGHBORS cfg)); [lia|].
    now rewrite length_map. }
  split; [now rewrite length_map|]. split; [rewrite length_map; lia|].
  rewrite Forall_forall in *. intros di Hdi. split; auto.
Qed.

(** ** A neighbour at distance zero *)






(** ** Further properties of the engine *)

Lemma batch_outcome cfg tree vals grid ub i w c w' :
  batch cfg tree vals grid ub i w = (Ok c, w') ->
  let start := (i * batch_size cfg)%Z in
  let stop := Z.min ((i + 1) * batch_size cfg) (Z.of_nat (length grid)) in
  ((stop <= start)%Z /\ c = Break /\ w' = w)
  \/ ((start < stop)%Z /\ c = Continue
      /\ trace w' = trace w ++ batch_events (start, stop)).
Proof.
  intros H start stop. unfold batch in H. fold start stop in H.
  destruct (start >=? stop)%Z eqn:E.
  - apply Z.geb_le in E. left. unfold ret in H. inversion H. auto.
  - rewrite Z.geb_leb, Z.leb_gt in E. right.
    unfold bind, emit, lift in H.
    destruct (query tree (slice grid start stop) (MAX_NEIGHBORS cfg) ub)
      as [[dists idxs]|e]; [|discriminate].
    destruct (batch_loop cfg vals dists idxs
                (seq 0 (length (slice grid start stop))) [] [])
      as [out|e]; [|discriminate].
    unfold set_resultados in H. cbn [resultados vizinhos_count trace] in H.
    destruct (slice_assign (resultados w) start stop (fst out)) as [r|e];
      [|discriminate].
    unfold set_vizinhos in H. cbn [resultados vizinhos_count trace] in H.
    destruct (slice_assign (vizinhos_count w) start stop (snd out)) as [r'|e];
      [|discriminate].
    unfold ret in H. inversion H. subst. cbn [trace batch_events fst snd].
    repeat split; auto. now rewrite <- !app_assoc.
Qed.

Lemma lt_num_queries (bs len i : Z) :
  (0 < bs)%Z -> (i * bs < len <-> i < num_queries bs len)%Z.
Proof.
  intros Hbs. unfold num_queries.
  pose proof (Z.div_mod (len + bs - 1) bs ltac:(lia)) as Hd.
  pose proof (Z.mod_pos_bound (len + bs - 1) bs Hbs) as Hm.
  split; intros H; nia.
Qed.

Lemma for_each_trace cfg tree vals grid ub :
  (0 < batch_size cfg)%Z ->
  let len := Z.of_nat (length grid) in
  let rng i := (i * batch_size cfg, Z.min ((i + 1) * batch_size cfg) len)%Z in
  let c := Z.to_nat (num_queries (batch_size cfg) len) in
  forall m a w w',
    for_each (map Z.of_nat (seq a m)) (batch cfg tree vals grid ub) w = (Ok tt, w') ->
    trace w' = trace w
               ++ flat_map batch_events
                    (map rng (map Z.of_nat (seq a (Nat.min m (c - a))))).
Proof.
  intros Hbs len rng c. induction m as [|m IH]; intros a w w' H.
  - cbn in H. unfold ret in H. inversion H. cbn. now rewrite app_nil_r.
  - cbn [seq map for_each] in H. unfold bind in H.
    destruct (batch cfg tree vals grid ub (Z.of_nat a) w) as [[ctl|e] w1] eqn:Eb;
      [|discriminate].
    apply batch_outcome in Eb. fold len in Eb.
    pose proof (lt_num_queries (batch_size cfg) len (Z.of_nat a) Hbs) as Hq.
    destruct Eb as [(Hge & -> & ->)|(Hlt & -> & Ht)].
    + unfold ret in H. inversion H. subst w'.
      replace (Nat.min (S m) (c - a)) with 0%nat by lia.
      cbn. now rewrite app_nil_r.
    + apply IH in H. rewrite H, Ht.
      replace (Nat.min (S m) (c - a)) with (S (Nat.min m (c - S a))) by lia.
      cbn [seq map flat_map]. now rewrite <- app_assoc.
Qed.

Lemma run_loop cfg est grid :
  est <> [] -> batch_size cfg <> 0%Z ->
  run cfg est grid
  = for_each (range (Z.of_nat (length grid) / batch_size cfg + 1))
      (batch cfg (tree_of est) (valores est) grid (max_dist_m cfg))
      {| resultados := np.zeros 0 (length grid);
         vizinhos_count := np.zeros 0%Z (length grid);
         trace := [] |}.
Proof.
  intros Hest Hbs. destruct est as [|s est]; [congruence|].
  unfold run, interpolar, bind, lift, alloc_resultados, alloc_vizinhos, floordiv.
  cbn [map cKDTree_init].
  destruct (Z.eqb_spec (batch_size cfg) 0) as [E|_]; [congruence|]. reflexivity.
Qed.

Lemma run_trace cfg est grid :
  est <> [] -> (0 < batch_size cfg)%Z -> (1 <= MAX_NEIGHBORS cfg)%Z ->
  exists w,
    run cfg est grid = (Ok tt, w)
    /\ trace w = flat_map batch_events
                   (batch_ranges (batch_size cfg) (Z.of_nat (length grid))).
Proof.
  intros Hest Hbs Hk.
  destruct (run_filled cfg est grid Hest Hbs Hk) as (w & E & _).
  exists w. split; [exact E|].
  rewrite run_loop in E by (auto; lia). unfold range in E.
  apply for_each_trace in E; [|exact Hbs]. cbn [trace app] in E. rewrite E.
  unfold batch_ranges, range. do 3 f_equal.
  set (len := Z.of_nat (length grid)).
  assert (num_queries (batch_size cfg) len <= len / batch_size cfg + 1)%Z.
  { unfold num_queries.
    pose proof (Z.div_mod (len + batch_size cfg - 1) (batch_size cfg) ltac:(lia)).
    pose proof (Z.mod_pos_bound (len + batch_size cfg - 1) (batch_size cfg) Hbs).
    pose proof (Z.div_mod len (batch_size cfg) ltac:(lia)).
    pose proof (Z.mod_pos_bound len (batch_size cfg) Hbs). nia. }
  f_equal. lia.
Qed.

Lemma batch_ranges_chained (bs len : Z) :
  (0 < bs)%Z -> (0 <= len)%Z -> chained 0 (batch_ranges bs len) len.
Proof.
  intros Hbs Hlen. unfold batch_ranges, range.
  assert (H : forall m a,
             (a + m = Z.to_nat (num_queries bs len))%nat ->
             chained (Z.min (Z.of_nat a * bs) len)
               (map (fun i => (i * bs, Z.min ((i + 1) * bs) len))%Z
                  (map Z.of_nat (seq a m))) len).
  { induction m as [|m IH]; intros a Ha; cbn [seq map chained fst snd].
    - pose proof (lt_num_queries bs len (Z.of_nat a) Hbs). lia.
    - pose proof (lt_num_queries bs len (Z.of_nat a) Hbs).
      split; [lia|]. split; [lia|].
      replace (Z.of_nat a + 1)%Z with (Z.of_nat (S a)) by lia.
      apply IH. lia. }
  specialize (H (Z.to_nat (num_queries bs len)) 0%nat eq_refl).
  replace (Z.min (Z.of_nat 0 * bs) len) with 0%Z in H by lia. exact H.
Qed.

Lemma in_batch_ranges (bs len s e : Z) :
  (0 < bs)%Z -> In (s, e) (batch_ranges bs len) ->
  (0 <= s < e /\ e <= len /\ e - s <= bs)%Z.
Proof.
  intros Hbs H. unfold batch_ranges, range in H.
  apply in_map_iff in H. destruct H as (i & Hi & H).
  apply in_map_iff in H. destruct H as (a & <- & Ha).
  apply in_seq in Ha. inversion Hi; subst.
  pose proof (lt_num_queries bs len (Z.of_nat a) Hbs). lia.
Qed.

Lemma queries_of_batches (l : list (Z * Z)) :
  length (filter is_query (flat_map batch_events l)) = length l
  /\ forall s e, In (EvQuery s e) (flat_map batch_events l) -> In (s, e) l.
Proof.
  induction l as [|[s0 e0] l [IH1 IH2]]; cbn; [split; [reflexivity | tauto]|].
  split; [now rewrite IH1|].
  intros s e [H|[H|[H|H]]]; try discriminate; [inversion H; auto | auto].
Qed.

(** X3.  Interpolating two grids one after the other in a single run gives
    the outputs of the two separate runs, one after the other: the pair of a
    point does not depend on which other points are in the grid. *)
Theorem grid_concatenation cfg est grid1 grid2 :
  est <> [] -> (0 < batch_size cfg)%Z -> (1 <= MAX_NEIGHBORS cfg)%Z ->
  exists w w1 w2,
    run cfg est (grid1 ++ grid2) = (Ok tt, w)
    /\ run cfg est grid1 = (Ok tt, w1)
    /\ run cfg est grid2 = (Ok tt, w2)
    /\ output w = output w1 ++ output w2.
Proof.
  intros Hest Hbs Hk.
  destruct (run_unbatched cfg est (grid1 ++ grid2) Hest Hbs Hk) as (w & E & _ & _ & Ho).
  destruct (run_unbatched cfg est grid1 Hest Hbs Hk) as (w1 & E1 & _ & _ & Ho1).
  destruct (run_unbatched cfg est grid2 Hest Hbs Hk) as (w2 & E2 & _ & _ & Ho2).
  exists w, w1, w2. repeat split; auto.
  rewrite Ho, Ho1, Ho2. apply interpolar_unbatched_app.
Qed.

(** X4.  The log of a run: the batches are handled in order, each with one
    query followed by the two slice assignments over the same range, and
    their ranges follow one another from 0 to the length of the grid with
    neither gap nor overlap, none of them empty. *)
Theorem batches_contiguous cfg est grid :
  est <> [] -> (0 < batch_size cfg)%Z -> (1 <= MAX_NEIGHBORS cfg)%Z ->
  let ranges := batch_ranges (batch_size cfg) (Z.of_nat (length grid)) in
  exists w,
    run cfg est grid = (Ok tt, w)
    /\ trace w = flat_map batch_events ranges
    /\ chained 0 ranges (Z.of_nat (length grid)).
Proof.
  intros Hest Hbs Hk ranges.
  destruct (run_trace cfg est grid Hest Hbs Hk) as (w & E & Ht).
  exists w. repeat split; auto. apply batch_ranges_chained; lia.
Qed.

(** X5.  Batching bounds the size of every query: a run asks the index
    [ceil(len / batch_size)] times, each time for at least one and at most
    [batch_size] points of the grid. *)
Theorem queries_bounded cfg est grid :
  est <> [] -> (0 < batch_size cfg)%Z -> (1 <= MAX_NEIGHBORS cfg)%Z ->
  exists w,
    run cfg est grid = (Ok tt, w)
    /\ Z.of_nat (length (filter is_query (trace w)))
       = ((Z.of_nat (length grid) + batch_size cfg - 1) / batch_size cfg)%Z
    /\ forall s e, In (EvQuery s e) (trace w) ->
         (0 <= s < e /\ e <= Z.of_nat (length grid) /\ e - s <= batch_size cfg)%Z.
Proof.
  intros Hest Hbs Hk.
  destruct (run_trace cfg est grid Hest Hbs Hk) as (w & E & Ht).
  exists w. split; [exact E|]. rewrite Ht.
  destruct (queries_of_batches
              (batch_ranges (batch_size cfg) (Z.of_nat (length grid)))) as [Hn Hin].
  split.
  - rewrite Hn. unfold batch_ranges, range.
    rewrite !length_map, length_seq. unfold num_queries.
    apply Z2Nat.id. apply Z.div_pos; lia.
  - intros s e H. apply Hin in H. now apply in_batch_ranges in H.
Qed.

(** X6.  With fewer stations than [MIN_NEIGHBORS] no point can reach the IDW
    branch: every pair of the run is the fallback. *)
Theorem too_few_stations_all_fallback cfg est grid :
  est <> [] -> (0 < batch_size cfg)%Z -> (1 <= MAX_NEIGHBORS cfg)%Z ->
  (Z.of_nat (length est) < MIN_NEIGHBORS cfg)%Z ->
  exists w,
    run cfg est grid = (Ok tt, w)
    /\ output w = map (fun _ => (np.mean (valores est), 0%Z)) grid.
Proof.
  intros Hest Hbs Hk Hfew.
  destruct (run_unbatched cfg est grid Hest Hbs Hk) as (w & E & _ & _ & Ho).
  exists w. split; [exact E|]. rewrite Ho. unfold interpolar_unbatched.
  apply map_ext. intros x. unfold point_value.
  destruct (Z.ltb_spec (Z.of_nat (length (neighbors cfg est x))) (MIN_NEIGHBORS cfg));
    [reflexivity|].
  rewrite neighbors_length in *.
  assert (stations_in_range cfg est x <= length est)%nat by apply filter_length_le.
  lia.
Qed.


(** X9.  When [MIN_NEIGHBORS] is below 1 the fallback is never taken: a
    point with no station in range goes through the IDW branch with empty
    arrays and gets the estimate 0 (not the global mean) and the count 0. *)
Theorem no_minimum_no_neighbor cfg est grid j x :
  est <> [] -> (0 < batch_size cfg)%Z -> (1 <= MAX_NEIGHBORS cfg)%Z ->
  (MIN_NEIGHBORS cfg <= 0)%Z ->
  nth_error grid j = Some x ->
  stations_in_range cfg est x = 0%nat ->
  exists w,
    run cfg est grid = (Ok tt, w)
    /\ nth_error (output w) j = Some (0, 0%Z).
Proof.
  intros Hest Hbs Hk Hmin Hx Hnone.
  destruct (run_point cfg est grid j x Hest Hbs Hk Hx) as (w & E & Hj).
  exists w. split; [exact E|]. rewrite Hj.
  pose proof (neighbors_length cfg est x) as Hl. rewrite Hnone, Nat.min_0_r in Hl.
  destruct (neighbors cfg est x); [|discriminate].
  unfold point_value. cbn [length Z.of_nat].
  destruct (Z.ltb_spec 0 (MIN_NEIGHBORS cfg)); [lia | reflexivity].
Qed.

(** X10.  A negative batch size makes the loop do nothing: the run ends
    normally without a single query and leaves both buffers as allocated,
    all zeros, whatever the stations. *)
Theorem negative_batch_size_skips_all cfg est grid :
  est <> [] -> (batch_size cfg < 0)%Z ->
  run cfg est grid
  = (Ok tt, {| resultados := np.zeros 0 (length grid);
               vizinhos_count := np.zeros 0%Z (length grid);
               trace := [] |}).
Proof.
  intros Hest Hbs. rewrite run_loop by (auto; lia).
  destruct grid as [|x grid].
  - cbn [length Z.of_nat]. rewrite Z.div_0_l by lia.
    change (range (0 + 1)) with [0%Z]. cbn [for_each]. unfold bind, batch.
    cbn [length Z.of_nat]. rewrite Z.mul_0_l.
    destruct (0 >=? Z.min ((0 + 1) * batch_size cfg) 0)%Z eqn:E; [reflexivity|].
    rewrite Z.geb_leb, Z.leb_gt in E. lia.
  - set (len := Z.of_nat (length (x :: grid))).
    assert (Hlen : (0 < len)%Z) by (subst len; simpl; lia).
    assert (Hq : (len / batch_size cfg + 1 <= 0)%Z).
    { pose proof (Z.div_mod len (batch_size cfg) ltac:(lia)).
      pose proof (Z.mod_neg_bound len (batch_size cfg) Hbs). nia. }
    unfold range. replace (Z.to_nat (len / batch_size cfg + 1)) with 0%nat by lia.
    reflexivity.
Qed.

(** X11.  A batch size of zero is caught by the division that counts the
    batches: the run ends with [ZeroDivisionError] after the buffers were
    allocated and before any query. *)
Theorem zero_batch_size_fails_early cfg est grid :
  est <> [] -> batch_size cfg = 0%Z ->
  run cfg est grid
  = (Raise ZeroDivisionError,
     {| resultados := np.zeros 0 (length grid);
        vizinhos_count := np.zeros 0%Z (length grid);
        trace := [] |}).
Proof.
  intros Hest Hbs. destruct est as [|s est]; [congruence|].
  unfold run, interpolar, bind, lift, alloc_resultados, alloc_vizinhos, floordiv.
  cbn [map cKDTree_init]. rewrite Hbs. reflexivity.
Qed.

Lemma Forall2_map_same {A B} (R : B -> B -> Prop) (f g : A -> B) (l : list A) :
  (forall x, R (f x) (g x)) -> Forall2 R (map f l) (map g l).
Proof. intros H. induction l; cbn; constructor; auto. Qed.

Lemma reach_mono (x : Point) (ub ub' : Q) (est : list Estacao) :
  ub <= ub' ->
  (length (filter (fun s => Qlt_bool (distance x (geometry s)) ub) est)
   <= length (filter (fun s => Qlt_bool (distance x (geometry s)) ub') est))%nat.
Proof.
  intros Hub. induction est as [|s est IH]; cbn; [lia|].
  destruct (Qlt_bool (distance x (geometry s)) ub) eqn:E.
  - apply Qlt_bool_iff in E.
    assert (E' : Qlt_bool (distance x (geometry s)) ub' = true)
      by (apply Qlt_bool_iff; eapply Qlt_le_trans; eauto).
    rewrite E'. cbn. lia.
  - destruct (Qlt_bool (distance x (geometry s)) ub'); cbn; lia.
Qed.

(** X23.  A wider cutoff never lowers a neighbour count: with
    [MAX_DISTANCE_KM] raised and everything else unchanged, both runs end
    normally and every point counts at least as many neighbours as before. *)
Theorem wider_cutoff_more_neighbors cfg est grid (km : Q) :
  est <> [] -> (0 < batch_size cfg)%Z -> (1 <= MAX_NEIGHBORS cfg)%Z ->
  MAX_DISTANCE_KM cfg <= km ->
  exists w w',
    run cfg est grid = (Ok tt, w)
    /\ run (with_max_distance cfg km) est grid = (Ok tt, w')
    /\ Forall2 Z.le (vizinhos_count w) (vizinhos_count w').
Proof.
  intros Hest Hbs Hk Hkm.
  destruct (run_unbatched cfg est grid Hest Hbs Hk) as (w & E & _ & Hv & _).
  destruct (run_unbatched (with_max_distance cfg km) est grid Hest Hbs Hk)
    as (w' & E' & _ & Hv' & _).
  exists w, w'. split; [exact E|]. split; [exact E'|].
  rewrite Hv, Hv'. unfold interpolar_unbatched. rewrite !map_map.
  apply Forall2_map_same. intros x. unfold point_value.
  pose proof (neighbors_length cfg est x) as Hl.
  pose proof (neighbors_length (with_max_distance cfg km) est x) as Hl'.
  assert (Hr : (stations_in_range cfg est x
                <= stations_in_range (with_max_distance cfg km) est x)%nat).
  { unfold stations_in_range. apply reach_mono. unfold max_dist_m. cbn. lra. }
  cbn [MAX_NEIGHBORS MIN_NEIGHBORS with_max_distance] in *.
  destruct (Z.ltb_spec (Z.of_nat (length (neighbors cfg est x))) (MIN_NEIGHBORS cfg));
    destruct (Z.ltb_spec
                (Z.of_nat (length (neighbors (with_max_distance cfg km) est x)))
                (MIN_NEIGHBORS cfg)); cbn [snd]; lia.
Qed.

End Engine.

(** ** The engine run on the example data *)

Lemma sqrt6_nonneg (x : Q) : 0 <= sqrt6 x.
Proof.
  unfold sqrt6, Qle. simpl. rewrite Z.mul_1_r. apply Z.sqrt_nonneg.
Qed.


Lemma index_order_perm t x k ub :
  Permutation (index_order t x k ub) (seq 0 (tree_n t)).
Proof. apply Permutation_refl. Qed.

Lemma reverse_order_perm t x k ub :
  Permutation (reverse_order t x k ub) (seq 0 (tree_n t)).
Proof. apply Permutation_sym, Permutation_rev. Qed.

(** The first scenario: the estimate at (50,0) uses the three stations, lies
    strictly between 10 and 30 and is nearer to 15 than to 30. *)
Example scenario_three_stations :
  exists e,
    nth_error (output (snd (run sqrt6 index_order cfg3 estacoes3 [(50, 0)]))) 0 = Some (e, 3%Z)
    /\ 10 < e /\ e < 30 /\ Qabs (e - 15) < Qabs (e - 30).
Proof.
  eexists. split; [vm_compute; reflexivity|]. repeat split.
Qed.

(** The second scenario: the only station is out of range, the point gets the
    global mean 42 and count 0. *)
Example scenario_sparse :
  exists e,
    nth_error (output (snd (run sqrt6 index_order cfg_sparse estacao42 [(10000, 0)]))) 0
    = Some (e, 0%Z) /\ e == 42.
Proof.
  eexists. split; [vm_compute; reflexivity|]. reflexivity.
Qed.

(** The neighbour counts of the four grid points, in two full batches. *)
Example scenario_counts :
  fst (run sqrt6 index_order cfg3 estacoes3 grid4) = Ok tt
  /\ vizinhos_count (snd (run sqrt6 index_order cfg3 estacoes3 grid4)) = [3; 3; 0; 3]%Z
  /\ trace (snd (run sqrt6 index_order cfg3 estacoes3 grid4))
     = [EvQuery 0 2; EvSetResultados 0 2; EvSetVizinhos 0 2;
        EvQuery 2 4; EvSetResultados 2 4; EvSetVizinhos 2 4].
Proof. vm_compute. repeat split. Qed.

(** ** The order among stations at equal distance *)

Lemma filter_perm {A} (P : A -> bool) (l l' : list A) :
  Permutation l l' -> Permutation (filter P l) (filter P l').
Proof.
  induction 1 as [|y l l' _ IH|y z l|l l' l'' _ IH1 _ IH2]; cbn; auto.
  - destruct (P y); auto.
  - destruct (P y), (P z); auto. apply perm_swap.
  - eapply perm_trans; eauto.
Qed.

Lemma none_below (a : Q) (l : list Q) :
  Forall (Qle a) l -> filter (fun y => Qlt_bool y a) l = [].
Proof.
  induction 1 as [|y l Hy _ IH]; cbn; [reflexivity|].
  destruct (Qlt_bool y a) eqn:E; [|exact IH].
  apply Qlt_bool_iff in E. exfalso. apply (Qlt_irrefl a).
  eapply Qle_lt_trans; eauto.
Qed.

Lemma Qlt_bool_comp (a b q : Q) : a == b -> Qlt_bool a q = Qlt_bool b q.
Proof. intros H. unfold Qlt_bool. now rewrite H. Qed.

(** Two rising lists with, below every bound, the same number of elements
    are equal position by position. *)
Lemma sorted_same_counts (l1 l2 : list Q) :
  StronglySorted Qle l1 -> StronglySorted Qle l2 ->
  length l1 = length l2 ->
  (forall q, length (filter (fun y => Qlt_bool y q) l1)
             = length (filter (fun y => Qlt_bool y q) l2)) ->
  Forall2 Qeq l1 l2.
Proof.
  revert l2. induction l1 as [|a l1 IH]; intros [|b l2] S1 S2 Hl Hc;
    try discriminate; [constructor|].
  inversion S1 as [|? ? S1' F1]; subst. inversion S2 as [|? ? S2' F2]; subst.
  assert (Hab : a == b).
  { apply Qle_antisym; apply Qnot_lt_le; intros Hlt.
    - specialize (Hc a). cbn in Hc.
      rewrite (none_below a l1 F1) in Hc.
      apply Qlt_bool_iff in Hlt. rewrite Hlt in Hc.
      assert (Haa : Qlt_bool a a = false).
      { destruct (Qlt_bool a a) eqn:E; [|reflexivity].
        apply Qlt_bool_iff in E. now apply Qlt_irrefl in E. }
      rewrite Haa in Hc. discriminate.
    - specialize (Hc b). cbn in Hc.
      rewrite (none_below b l2 F2) in Hc.
      apply Qlt_bool_iff in Hlt. rewrite Hlt in Hc.
      assert (Hbb : Qlt_bool b b = false).
      { destruct (Qlt_bool b b) eqn:E; [|reflexivity].
        apply Qlt_bool_iff in E. now apply Qlt_irrefl in E. }
      rewrite Hbb in Hc. discriminate. }
  constructor; [exact Hab|].
  apply IH; auto.
  intros q. specialize (Hc q). cbn in Hc.
  rewrite (Qlt_bool_comp a b q Hab) in Hc.
  destruct (Qlt_bool b q); cbn in Hc; congruence.
Qed.

Lemma Forall2_firstn {A B} (R : A -> B -> Prop) (n : nat) (l : list A) (l' : list B) :
  Forall2 R l l' -> Forall2 R (firstn n l) (firstn n l').
Proof.
  intros H. revert n. induction H; intros [|n]; cbn; constructor; auto.
Qed.

(** X24.  The order in which the index lists stations at equal distance
    decides which of them are kept when [MAX_NEIGHBORS] cuts a tie, and
    nothing else: under any two such orders both runs end normally with the
    same neighbour counts, each point is given the same distances, and the
    points of count 0 get the same estimate. *)
Theorem tie_order_leaves_counts (sqrt : Q -> Q)
    (visit1 visit2 : cKDTree -> Point -> Z -> Q -> list nat) cfg est grid :
  (forall t x k ub, Permutation (visit1 t x k ub) (seq 0 (tree_n t))) ->
  (forall t x k ub, Permutation (visit2 t x k ub) (seq 0 (tree_n t))) ->
  est <> [] -> (0 < batch_size cfg)%Z -> (1 <= MAX_NEIGHBORS cfg)%Z ->
  exists w1 w2,
    run sqrt visit1 cfg est grid = (Ok tt, w1)
    /\ run sqrt visit2 cfg est grid = (Ok tt, w2)
    /\ vizinhos_count w1 = vizinhos_count w2
    /\ (forall x,
          Forall2 Qeq (map fst (neighbors sqrt visit1 cfg est x))
            (map fst (neighbors sqrt visit2 cfg est x)))
    /\ (forall j, nth_error (vizinhos_count w1) j = Some 0%Z ->
          nth_error (resultados w1) j = nth_error (resultados w2) j).
Proof.
  intros P1 P2 Hest Hbs Hk.
  destruct (run_unbatched sqrt visit1 P1 cfg est grid Hest Hbs Hk)
    as (w1 & E1 & Hr1 & Hv1 & _).
  destruct (run_unbatched sqrt visit2 P2 cfg est grid Hest Hbs Hk)
    as (w2 & E2 & Hr2 & Hv2 & _).
  assert (Hlen : forall x, length (neighbors sqrt visit1 cfg est x)
                           = length (neighbors sqrt visit2 cfg est x)).
  { intros x. now rewrite !neighbors_length. }
  exists w1, w2. split; [exact E1|]. split; [exact E2|]. split; [|split].
  - rewrite Hv1, Hv2. unfold interpolar_unbatched. rewrite !map_map.
    apply map_ext. intros x. unfold point_value. rewrite (Hlen x).
    now destruct (_ <? _)%Z.
  - intros x. unfold neighbors. rewrite !valid_neighbors_firstn, <- !firstn_map.
    apply Forall2_firstn.
    set (t := tree_of est). set (k := MAX_NEIGHBORS cfg). set (ub := max_dist_m cfg).
    apply sorted_same_counts.
    + apply sorted_map_fst, sort_by_dist_sorted.
    + apply sorted_map_fst, sort_by_dist_sorted.
    + now rewrite !length_map, !in_range_length.
    + intros q. rewrite !filter_map_length. apply filter_perm_length.
      unfold in_range.
      rewrite (sort_by_dist_perm (filter _ (all_dists sqrt visit1 t x k ub))).
      rewrite (sort_by_dist_perm (filter _ (all_dists sqrt visit2 t x k ub))).
      apply filter_perm.
      rewrite (all_dists_perm sqrt visit1 P1 t x k ub).
      now rewrite (all_dists_perm sqrt visit2 P2 t x k ub).
  - intros j Hj. rewrite Hv1 in Hj. rewrite Hr1, Hr2.
    clear E1 E2 Hr1 Hr2 Hv1 Hv2.
    unfold interpolar_unbatched in *.
    rewrite map_map, nth_error_map in Hj. rewrite !map_map, !nth_error_map.
    destruct (nth_error grid j) as [x|]; [|reflexivity].
    cbn [option_map] in *. f_equal.
    assert (H0 : snd (point_value cfg (valores est)
                        (neighbors sqrt visit1 cfg est x)) = 0%Z)
      by (inversion Hj; reflexivity).
    clear Hj. specialize (Hlen x). unfold point_value in *. rewrite <- Hlen.
    destruct (Z.ltb_spec (Z.of_nat (length (neighbors sqrt visit1 cfg est x)))
                (MIN_NEIGHBORS cfg)); [reflexivity|].
    cbn [snd] in H0.
    destruct (neighbors sqrt visit1 cfg est x); [|cbn [length] in H0; lia].
    destruct (neighbors sqrt visit2 cfg est x); [reflexivity | discriminate].
Qed.

(** ** The claims at concrete inputs *)

Lemma fallback_is_global_mean_witness :
  (Z.of_nat (length (neighbors sqrt6 index_order cfg_sparse estacao42 (10000, 0)%Q))
   < MIN_NEIGHBORS cfg_sparse)%Z
  /\ exists w,
       run sqrt6 index_order cfg_sparse estacao42 [(10000, 0)] = (Ok tt, w)
       /\ nth_error (output w) 0 = Some (np.mean (valores estacao42), 0%Z)
       /\ np.mean (valores estacao42) * inject_Z (Z.of_nat (length estacao42))
          == np.sum (map dry_season_length estacao42).
Proof.
  split; [reflexivity|].
  apply (fallback_is_global_mean sqrt6 index_order index_order_perm cfg_sparse estacao42 [(10000, 0)%Q]
           0%nat (10000, 0)%Q);
    [discriminate | reflexivity | discriminate | reflexivity | reflexivity].
Defined.

(** C2 as stated fails, in two ways.  Rounding: for a point with three
    stations of value 7 at 200 m, 250 m and 1000 m the run takes the IDW
    branch with these three distances, and in binary64 the weights divided by
    their sum add up to less than 1 and the estimate is the number just below
    7, outside the range [7, 7] of the neighbour values.  The cutoff: a station
    exactly at the maximum distance does not count, so a point with two
    stations at no more than the maximum distance, two being required, gets
    the fallback and the count 0. *)
Lemma idw_estimate_leaves_value_range :
  (exists e,
     output (snd (run sqrt6 index_order default_config estacoes_7 [(0, 0)]))
     = [(e, 3%Z)])
  /\ Forall2 Qeq
       (map fst (neighbors sqrt6 index_order default_config estacoes_7 (0, 0)))
       [200; 250; 1000]
  /\ binary64.idw binary64.d_7 binary64.vals_7 = Some binary64.below_seven
  /\ PrimFloat.ltb binary64.below_seven binary64.seven = true
  /\ PrimFloat.ltb
       (binary64.sum (binary64.normalize (binary64.raw_weights binary64.d_7)))
       binary64.one = true
  /\ length (filter (fun s => Qle_bool (distance sqrt6 (0, 0) (geometry s))
                                (max_dist_m cfg_borda)) estacoes_borda)
     = 2%nat
  /\ MIN_NEIGHBORS cfg_borda = 2%Z
  /\ exists e,
       output (snd (run sqrt6 index_order cfg_borda estacoes_borda [(0, 0)]))
       = [(e, 0%Z)]
       /\ e == 15.
Proof.
  split; [eexists; vm_compute; reflexivity|].
  split; [vm_compute; repeat constructor|].
  split; [vm_compute; reflexivity|].
  split; [vm_compute; reflexivity|].
  split; [vm_compute; reflexivity|].
  split; [vm_compute; reflexivity|].
  split; [reflexivity|].
  eexists. split; [vm_compute; reflexivity|]. reflexivity.
Qed.

Lemma idw_estimate_stored_witness :
  (MIN_NEIGHBORS cfg3
   <= Z.of_nat (stations_in_range sqrt6 cfg3 estacoes3 (50, 0)%Q))%Z
  /\ let row := query_point sqrt6 index_order (tree_of estacoes3) (50, 0)
                  (MAX_NEIGHBORS cfg3) (max_dist_m cfg3) in
     let d := finite_part (fst row) in
     let ix := select (snd row) (ne_inf (fst row)) in
     let w := map (fun di => 1 / (di + eps) ^ POWER cfg3) d in
     let weights := map (fun wi => wi / np.sum w) w in
     exists wd vals,
       run sqrt6 index_order cfg3 estacoes3 grid4 = (Ok tt, wd)
       /\ take (valores estacoes3) ix = Ok vals
       /\ Forall2 (fun i v => exists st, nth_error estacoes3 i = Some st
                                         /\ v = dry_season_length st) ix vals
       /\ np.dot weights vals = Ok (np.inner weights vals)
       /\ nth_error (output wd) 0
          = Some (np.inner weights vals, Z.of_nat (length d))
       /\ length d = Nat.min (Z.to_nat (MAX_NEIGHBORS cfg3))
                       (stations_in_range sqrt6 cfg3 estacoes3 (50, 0))
       /\ (MIN_NEIGHBORS cfg3 <= Z.of_nat (length d))%Z
       /\ Forall (fun di => 0 <= di /\ di < max_dist_m cfg3) d.
Proof.
  split; [vm_compute; discriminate|].
  apply (idw_estimate_stored sqrt6 sqrt6_nonneg index_order index_order_perm
           cfg3 estacoes3 grid4 0%nat (50, 0)%Q);
    [discriminate | reflexivity | discriminate | discriminate | reflexivity
    | vm_compute; discriminate].
Defined.

(** Four stations at the same distance and three neighbours asked for: which
    three are kept depends on the order the index lists them in. *)
Example tie_cut_by_max_neighbors :
  map snd (neighbors sqrt6 index_order cfg3 estacoes_empate (0, 0))
  = [0; 1; 2]%nat
  /\ map snd (neighbors sqrt6 reverse_order cfg3 estacoes_empate (0, 0))
     = [3; 2; 1]%nat
  /\ exists e1 e2,
       output (snd (run sqrt6 index_order cfg3 estacoes_empate [(0, 0)]))
       = [(e1, 3%Z)]
       /\ output (snd (run sqrt6 reverse_order cfg3 estacoes_empate [(0, 0)]))
          = [(e2, 3%Z)]
       /\ e1 == 2 /\ e2 == 3.
Proof.
  split; [vm_compute; reflexivity|]. split; [vm_compute; reflexivity|].
  eexists. eexists. split; [vm_compute; reflexivity|].
  split; [vm_compute; reflexivity|]. split; reflexivity.
Qed.

Lemma valid_neighbors_contract_witness :
  let t := tree_of estacoes_empate in
  let x : Point := (0, 0) in
  let k := 3%Z in
  let ub : Q := 1000 in
  let dists_j := fst (query_point sqrt6 reverse_order t x k ub) in
  let idxs_j := snd (query_point sqrt6 reverse_order t x k ub) in
  let valid := ne_inf dists_j in
  let d := finite_part dists_j in
  let ix := select idxs_j valid in
  let reach := length (filter (fun p => Qlt_bool (distance sqrt6 x p) ub)
                         (data t)) in
  (length dists_j = Z.to_nat k /\ length idxs_j = Z.to_nat k)
  /\ length d = length ix
  /\ (length d <= Z.to_nat k)%nat
  /\ StronglySorted Qle d
  /\ NoDup ix
  /\ Forall2 (fun di i =>
                (i < tree_n t)%nat
                /\ exists p, nth_error (data t) i = Some p
                             /\ di = distance sqrt6 x p /\ di < ub) d ix
  /\ (forall i p, nth_error (data t) i = Some p -> ub <= distance sqrt6 x p ->
        ~ In i ix)
  /\ (forall di i p, In di d -> nth_error (data t) i = Some p ->
        distance sqrt6 x p < ub -> ~ In i ix -> di <= distance sqrt6 x p)
  /\ length d = Nat.min (Z.to_nat k) reach
  /\ ((reach <= Z.to_nat k)%nat ->
        forall i p, nth_error (data t) i = Some p -> distance sqrt6 x p < ub ->
          In i ix)
  /\ dists_j = map Fin d ++ repeat Inf (Z.to_nat k - length d)
  /\ idxs_j = ix ++ repeat (tree_n t) (Z.to_nat k - length d)
  /\ (forall (row : list xfloat) (idx : list nat),
        length row = length idx ->
        length (finite_part row) = length (select idx (ne_inf row))
        /\ combine (finite_part row) (select idx (ne_inf row))
           = flat_map (fun c => match fst c with
                                | Fin q => [(q, snd c)]
                                | Inf => []
                                end) (combine row idx)).
Proof.
  apply (valid_neighbors_contract sqrt6 reverse_order reverse_order_perm
           (tree_of estacoes_empate) (0, 0)%Q 3%Z 1000).
Defined.

(** C6 as stated fails: the exception a run without stations ends with is
    the [ValueError] of the index library.  The script defines no exception
    class of its own. *)
Lemma no_station_raises_value_error :
  run sqrt6 index_order default_config [] grid4 = (Raise ValueError, world0).
Proof. reflexivity. Qed.



(** C3 as stated fails: on the empty grid, batch size [len(grid)] is 0 and
    the division [len(coords_grid) // batch_size] raises, while batch size 1
    ends normally with the empty output. *)
Lemma batch_size_len_of_empty_grid :
  let grid : list Point := [] in
  run sqrt6 index_order (with_batch_size cfg3 1) estacoes3 grid = (Ok tt, world0)
  /\ fst (run sqrt6 index_order (with_batch_size cfg3 (Z.of_nat (length grid))) estacoes3 grid)
     = Raise ZeroDivisionError
  /\ fst (run sqrt6 index_order (with_batch_size cfg3 1) estacoes3 grid)
     <> fst (run sqrt6 index_order (with_batch_size cfg3 (Z.of_nat (length grid))) estacoes3 grid).
Proof.
  vm_compute. repeat split. discriminate.
Qed.

Lemma batch_size_invariance_witness :
  let r1 := run sqrt6 index_order (with_batch_size cfg3 1) estacoes3 grid4 in
  let r2 := run sqrt6 index_order (with_batch_size cfg3 3) estacoes3 grid4 in
  (fst r1 = fst r2
   /\ resultados (snd r1) = resultados (snd r2)
   /\ vizinhos_count (snd r1) = vizinhos_count (snd r2)
   /\ output (snd r1) = output (snd r2))
  /\ (fst r1 = Ok tt ->
      output (snd r1) = interpolar_unbatched sqrt6 index_order cfg3 estacoes3 grid4)
  /\ (grid4 <> [] ->
      output (snd (run sqrt6 index_order (with_batch_size cfg3 1) estacoes3 grid4))
      = output (snd (run sqrt6 index_order (with_batch_size cfg3 (Z.of_nat (length grid4)))
                       estacoes3 grid4))).
Proof.
  apply (batch_size_invariance sqrt6 index_order index_order_perm cfg3 estacoes3 grid4 1 3);
    reflexivity.
Defined.

Lemma every_slot_written_once_witness :
  (Z.of_nat (length grid4) mod batch_size cfg3 = 0)%Z
  /\ exists w,
       run sqrt6 index_order cfg3 estacoes3 grid4 = (Ok tt, w)
       /\ length (resultados w) = length grid4
       /\ length (vizinhos_count w) = length grid4
       /\ length (output w) = length grid4
       /\ (forall j, (j < length grid4)%nat ->
             writes_resultados (trace w) j = 1%nat
             /\ writes_vizinhos (trace w) j = 1%nat)
       /\ (forall j, (length grid4 <= j)%nat ->
             writes_resultados (trace w) j = 0%nat
             /\ writes_vizinhos (trace w) j = 0%nat)
       /\ (forall j x, nth_error grid4 j = Some x ->
             exists v,
               interp_point cfg3 (valores estacoes3)
                 (fst (query_point sqrt6 index_order (tree_of estacoes3) x
                         (MAX_NEIGHBORS cfg3) (max_dist_m cfg3)))
                 (snd (query_point sqrt6 index_order (tree_of estacoes3) x
                         (MAX_NEIGHBORS cfg3) (max_dist_m cfg3)))
               = Ok v
               /\ nth_error (output w) j = Some v).
Proof.
  split; [reflexivity|].
  apply (every_slot_written_once sqrt6 index_order index_order_perm cfg3 estacoes3 grid4);
    [discriminate | reflexivity | discriminate].
Defined.

(** C7 as stated fails: with power 0, with a minimum of 0 neighbours and with
    a maximum below the minimum the run raises nothing and fills the four
    slots. *)
Lemma invalid_configurations_run :
  (POWER cfg_power0 <= 0)%Z
  /\ fst (run sqrt6 index_order cfg_power0 estacoes3 grid4) = Ok tt
  /\ (MIN_NEIGHBORS cfg_min0 < 1)%Z
  /\ fst (run sqrt6 index_order cfg_min0 estacoes3 grid4) = Ok tt
  /\ (MAX_NEIGHBORS cfg_max_lt_min < MIN_NEIGHBORS cfg_max_lt_min)%Z
  /\ fst (run sqrt6 index_order cfg_max_lt_min estacoes3 grid4) = Ok tt
  /\ vizinhos_count (snd (run sqrt6 index_order cfg_max_lt_min estacoes3 grid4))
     = [0; 0; 0; 0]%Z.
Proof.
  vm_compute. repeat split; discriminate.
Qed.

Lemma no_configuration_check_witness :
  (exists w,
     run sqrt6 index_order cfg_max_lt_min estacoes3 grid4 = (Ok tt, w)
     /\ length (output w) = length grid4
     /\ ((MAX_NEIGHBORS cfg_max_lt_min < MIN_NEIGHBORS cfg_max_lt_min)%Z ->
         forall j, (j < length grid4)%nat ->
           nth_error (output w) j = Some (np.mean (valores estacoes3), 0%Z)))
  /\ (0 < POWER default_config /\ 1 <= MIN_NEIGHBORS default_config
      /\ MIN_NEIGHBORS default_config <= MAX_NEIGHBORS default_config)%Z.
Proof.
  apply (no_configuration_check sqrt6 index_order index_order_perm cfg_max_lt_min
           estacoes3 grid4);
    [discriminate | reflexivity | discriminate | right; right; reflexivity].
Defined.

Lemma empty_grid_is_valid_witness :
  exists w,
    run sqrt6 index_order default_config estacoes3 [] = (Ok tt, w)
    /\ output w = []
    /\ resultados w = [] /\ vizinhos_count w = [] /\ trace w = [].
Proof.
  apply (empty_grid_is_valid sqrt6 index_order default_config estacoes3);
    [discriminate | discriminate].
Defined.

Lemma neighbor_count_range_witness :
  exists w,
    run sqrt6 index_order cfg3 estacoes3 grid4 = (Ok tt, w)
    /\ forall j n, nth_error (vizinhos_count w) j = Some n ->
         n = 0%Z
         \/ (MIN_NEIGHBORS cfg3 <= n
             <= Z.min (MAX_NEIGHBORS cfg3) (Z.of_nat (length estacoes3)))%Z.
Proof.
  apply (neighbor_count_range sqrt6 index_order index_order_perm cfg3 estacoes3 grid4);
    [discriminate | reflexivity | discriminate].
Defined.

(** ** The automatic grid *)

(** Zipping row after row: the rows of the two arrays have equal lengths. *)
Lemma combine_rows {A B} (row : list A) (row' : list B) :
  length row = length row' ->
  forall (below : list A) (below' : list B),
    combine (row ++ below) (row' ++ below')
    = combine row row' ++ combine below below'.
Proof.
  revert row'. induction row as [|a row IH]; intros [|b row'] Hlen below below';
    try discriminate; [reflexivity|].
  cbn. f_equal. apply IH. simpl in Hlen. congruence.
Qed.

Lemma combine_const {A B} (l : list A) (b : B) :
  combine l (map (fun _ => b) l) = map (fun a => (a, b)) l.
Proof. induction l; cbn; congruence. Qed.

Lemma mesh_points (x y : list Q) :
  combine (np.flatten (fst (np.meshgrid x y))) (np.flatten (snd (np.meshgrid x y)))
  = flat_map (fun yi => map (fun xj => (xj, yi)) x) y.
Proof.
  unfold np.meshgrid, np.flatten. cbn [fst snd].
  induction y as [|yi y IH]; cbn; [reflexivity|].
  rewrite combine_rows by (now rewrite length_map).
  now rewrite IH, combine_const.
Qed.

Lemma flat_map_const_length {A B} (f : A -> list B) (l : list A) (n : nat) :
  (forall a, length (f a) = n) -> length (flat_map f l) = (length l * n)%nat.
Proof.
  intros H. induction l as [|a l IH]; cbn; [reflexivity|].
  now rewrite length_app, H, IH.
Qed.

(** X16.  The points of the automatic grid, given its two axes, come row
    after row: for each [y] in order, every [x] in order.  Their number is
    the product of the lengths of the axes, and the point of column [j] in
    row [i] is at position [i * len(x) + j]. *)
Theorem points_row_major (x y : list Q) :
  points x y = flat_map (fun yi => map (fun xj => (xj, yi)) x) y
  /\ length (points x y) = (length y * length x)%nat
  /\ forall i j xj yi,
       nth_error y i = Some yi -> nth_error x j = Some xj ->
       nth_error (points x y) (i * length x + j) = Some (xj, yi).
Proof.
  assert (E : points x y = flat_map (fun yi => map (fun xj => (xj, yi)) x) y).
  { unfold points. pose proof (mesh_points x y) as H.
    destruct (np.meshgrid x y) as [xx yy]. exact H. }
  split; [exact E|]. rewrite E. clear E. split.
  - apply flat_map_const_length. intros yi. apply length_map.
  - induction y as [|y0 y IH]; intros [|i] j xj yi Hy Hx; try discriminate;
      cbn [flat_map].
    + cbn in Hy. inversion Hy; subst y0. cbn [Nat.mul Nat.add].
      rewrite nth_error_app1
        by (rewrite length_map; apply nth_error_Some; congruence).
      now rewrite nth_error_map, Hx.
    + cbn in Hy. rewrite nth_error_app2 by (rewrite length_map; cbn; lia).
      rewrite length_map.
      replace (S i * length x + j - length x)%nat with (i * length x + j)%nat
        by (cbn; lia).
      apply IH; auto.
Qed.

(** ** The search for the base grid *)

Lemma prefix_iff (sub s : String.string) :
  String.prefix sub s = true <-> exists b, s = String.append sub b.
Proof.
  revert s. induction sub as [|c sub IH]; intros s.
  - split; [intros _; now exists s | intros _; now destruct s].
  - destruct s as [|c' s]; simpl.
    + split; [discriminate | intros (b & H); discriminate].
    + destruct (Ascii.ascii_dec c c') as [->|Hne].
      * rewrite IH. split; intros (b & H); exists b; congruence.
      * split; [discriminate | intros (b & H); congruence].
Qed.

Lemma contains_iff (sub s : String.string) :
  Arquivos.contains sub s = true <->
  exists a b, s = String.append a (String.append sub b).
Proof.
  induction s as [|c s IH]; cbn [Arquivos.contains].
  - destruct (String.prefix sub String.EmptyString) eqn:E.
    + apply prefix_iff in E. destruct E as (b & E).
      split; [intros _; now exists String.EmptyString, b | reflexivity].
    + split; [discriminate|]. intros (a & b & H).
      destruct a; [|discriminate]. simpl in H.
      assert (String.prefix sub String.EmptyString = true)
        by (apply prefix_iff; eauto). congruence.
  - destruct (String.prefix sub (String.String c s)) eqn:E.
    + apply prefix_iff in E. destruct E as (b & E).
      split; [intros _; now exists String.EmptyString, b | reflexivity].
    + rewrite IH. split.
      * intros (a & b & ->). now exists (String.String c a), b.
      * intros (a & b & H). destruct a as [|c' a]; simpl in H.
        -- assert (String.prefix sub (String.String c s) = true)
             by (apply prefix_iff; eauto). congruence.
        -- inversion H. eauto.
Qed.

(** X19.  The base grid is the first file of the listing whose name contains
    [5km] and does not contain [clima]; there is none exactly when no file of
    the listing qualifies. *)
Theorem procurar_grid_first_match (possiveis_grids : list String.string) :
  (forall p, Arquivos.procurar_grid possiveis_grids = Some p <->
     exists before after,
       possiveis_grids = before ++ p :: after
       /\ Arquivos.grid_base p = true
       /\ forall q, In q before -> Arquivos.grid_base q = false)
  /\ (Arquivos.procurar_grid possiveis_grids = None <->
      forall q, In q possiveis_grids -> Arquivos.grid_base q = false).
Proof.
  induction possiveis_grids as [|q0 l [IH1 IH2]]; simpl.
  - split.
    + intros p. split; [discriminate|]. intros (b & a & H & _).
      destruct b; discriminate.
    + split; [intros _ q [] | reflexivity].
  - destruct (Arquivos.grid_base q0) eqn:E; split.
    + intros p. split.
      * intros H. inversion H; subst. exists [], l. repeat split; auto.
        intros q [].
      * intros (b & a & H & Hp & Hb). destruct b as [|q1 b]; simpl in H.
        -- congruence.
        -- inversion H; subst. rewrite (Hb q1 (or_introl eq_refl)) in E.
           discriminate.
    + split; [discriminate|]. intros H. rewrite (H q0 (or_introl eq_refl)) in E.
      discriminate.
    + intros p. rewrite IH1. split.
      * intros (b & a & -> & Hp & Hb). exists (q0 :: b), a.
        repeat split; auto. intros q [<-|Hq]; auto.
      * intros (b & a & H & Hp & Hb). destruct b as [|q1 b]; simpl in H.
        -- inversion H; subst. congruence.
        -- inversion H; subst. exists b, a. repeat split; auto.
           intros q Hq. apply Hb. now right.
    + rewrite IH2. split.
      * intros H q [<-|Hq]; auto.
      * intros H q Hq. apply H. now right.
Qed.

(** X20.  The script never takes one of its own outputs for the base grid:
    whatever the listing, the file found has [5km] and has no [clima] in its
    name, so it is neither of the two files the script writes. *)
Theorem procurar_grid_never_own_output (possiveis_grids : list String.string) p :
  Arquivos.procurar_grid possiveis_grids = Some p ->
  In p possiveis_grids
  /\ (exists a b, p = String.append a (String.append Arquivos.marca_5km b))
  /\ ~ (exists a b, p = String.append a (String.append Arquivos.marca_clima b))
  /\ p <> Arquivos.saida_gpkg /\ p <> Arquivos.saida_csv.
Proof.
  intros H.
  assert (Hp : In p possiveis_grids /\ Arquivos.grid_base p = true).
  { induction possiveis_grids as [|q l IH]; simpl in H; [discriminate|].
    destruct (Arquivos.grid_base q) eqn:E.
    - inversion H; subst. split; [now left | exact E].
    - destruct (IH H). split; [now right | assumption]. }
  destruct Hp as [Hin Hb]. split; [exact Hin|].
  unfold Arquivos.grid_base in Hb. apply andb_true_iff in Hb.
  destruct Hb as [H5 Hc]. apply negb_true_iff in Hc.
  split; [now apply contains_iff|]. split.
  - intros Hex. apply contains_iff in Hex. congruence.
  - split; intros ->; vm_compute in Hc; discriminate.
Qed.

(** ** The installation test *)

Lemma test_libs_finished importer libs :
  (forall lib, In lib libs -> TestInstallation.escapes importer lib = false) ->
  forall st,
    TestInstallation.test_libs importer libs st
    = TestInstallation.Finished
        {| TestInstallation.attempted :=
             TestInstallation.attempted st ++ map fst libs;
           TestInstallation.printed :=
             TestInstallation.printed st
             ++ map (TestInstallation.report importer) libs;
           TestInstallation.errors :=
             TestInstallation.errors st
             ++ map snd (filter (TestInstallation.fails importer) libs) |}.
Proof.
  induction libs as [|[m d] libs IH]; intros Hno st.
  - cbn. rewrite !app_nil_r. now destruct st.
  - pose proof (Hno (m, d) (or_introl eq_refl)) as Hmd.
    unfold TestInstallation.escapes in Hmd. cbn [fst] in Hmd.
    cbn [TestInstallation.test_libs map filter].
    destruct (importer m) as [|e|] eqn:E; [| |discriminate].
    + assert (Hr : TestInstallation.report importer (m, d)
                   = TestInstallation.LineOk d)
        by (unfold TestInstallation.report; cbn [fst snd]; now rewrite E).
      assert (Hf : TestInstallation.fails importer (m, d) = false)
        by (unfold TestInstallation.fails; cbn [fst]; now rewrite E).
      rewrite Hr, Hf, IH by (intros; apply Hno; now right).
      cbn [TestInstallation.attempted TestInstallation.printed
             TestInstallation.errors fst].
      now rewrite <- !app_assoc.
    + assert (Hr : TestInstallation.report importer (m, d)
                   = TestInstallation.LineErro d e)
        by (unfold TestInstallation.report; cbn [fst snd]; now rewrite E).
      assert (Hf : TestInstallation.fails importer (m, d) = true)
        by (unfold TestInstallation.fails; cbn [fst]; now rewrite E).
      rewrite Hr, Hf, IH by (intros; apply Hno; now right).
      cbn [TestInstallation.attempted TestInstallation.printed
             TestInstallation.errors fst snd map].
      now rewrite <- !app_assoc.
Qed.

(** X21.  When no import raises anything but [ImportError], the loop tries
    every library once, in order, prints one line per library, and collects
    in [errors] the display names of exactly those whose import failed, in
    order; the closing message is the success message if and only if every
    library was imported. *)
Theorem test_libs_reports_all importer libs :
  (forall lib, In lib libs ->
     importer (fst lib) <> TestInstallation.RaisesOther) ->
  exists st,
    TestInstallation.test_libs importer libs TestInstallation.state0
    = TestInstallation.Finished st
    /\ TestInstallation.attempted st = map fst libs
    /\ TestInstallation.printed st = map (TestInstallation.report importer) libs
    /\ TestInstallation.errors st
       = map snd (filter (TestInstallation.fails importer) libs)
    /\ (TestInstallation.final_message (TestInstallation.errors st)
        = TestInstallation.Sucesso
        <-> forall lib, In lib libs ->
              importer (fst lib) = TestInstallation.Imported).
Proof.
  intros Hno.
  assert (Hesc : forall lib, In lib libs ->
            TestInstallation.escapes importer lib = false).
  { intros lib Hl. specialize (Hno lib Hl). unfold TestInstallation.escapes.
    destruct (importer (fst lib)); congruence. }
  eexists. split; [apply test_libs_finished; exact Hesc|].
  cbn [TestInstallation.attempted TestInstallation.printed
         TestInstallation.errors TestInstallation.state0 app].
  repeat split; auto.
  - intros Hs lib Hl.
    destruct (importer (fst lib)) as [|e|] eqn:E; [reflexivity | | ].
    + exfalso.
      assert (Hin : In (snd lib)
                      (map snd (filter (TestInstallation.fails importer) libs))).
      { apply in_map, filter_In. split; [exact Hl|].
        unfold TestInstallation.fails. now rewrite E. }
      destruct (map snd (filter (TestInstallation.fails importer) libs));
        [contradiction | discriminate].
    + exfalso. now apply (Hno lib Hl).
  - intros Hall.
    assert (Hnil : filter (TestInstallation.fails importer) libs = []).
    { clear Hno Hesc. induction libs as [|lib libs IH]; [reflexivity|].
      cbn [filter]. unfold TestInstallation.fails at 1.
      rewrite (Hall lib (or_introl eq_refl)). apply IH.
      intros l Hl. apply Hall. now right. }
    now rewrite Hnil.
Qed.

(** X22.  Only [ImportError] is caught: at the first library whose import
    raises something else the script stops; the libraries after it are never
    tried, nothing is printed for it and no closing message is reached. *)
Theorem test_libs_stops_at_other_exception importer before lib after :
  (forall l, In l before ->
     importer (fst l) <> TestInstallation.RaisesOther) ->
  importer (fst lib) = TestInstallation.RaisesOther ->
  TestInstallation.test_libs importer (before ++ lib :: after)
    TestInstallation.state0
  = TestInstallation.Uncaught
      {| TestInstallation.attempted := map fst before ++ [fst lib];
         TestInstallation.printed :=
           map (TestInstallation.report importer) before;
         TestInstallation.errors :=
           map snd (filter (TestInstallation.fails importer) before) |}.
Proof.
  intros Hno Hlib.
  assert (Hgen : forall st,
            TestInstallation.test_libs importer (before ++ lib :: after) st
            = TestInstallation.Uncaught
                {| TestInstallation.attempted :=
                     TestInstallation.attempted st ++ map fst before ++ [fst lib];
                   TestInstallation.printed :=
                     TestInstallation.printed st
                     ++ map (TestInstallation.report importer) before;
                   TestInstallation.errors :=
                     TestInstallation.errors st
                     ++ map snd (filter (TestInstallation.fails importer) before) |}).
  { induction before as [|[m d] before IH]; intros st.
    - destruct lib as [m d]. cbn [app TestInstallation.test_libs map filter].
      cbn [fst] in Hlib. rewrite Hlib. now rewrite !app_nil_r.
    - pose proof (Hno (m, d) (or_introl eq_refl)) as Hmd. cbn [fst] in Hmd.
      cbn [app TestInstallation.test_libs map filter].
      destruct (importer m) as [|e|] eqn:E; [| |congruence].
      + assert (Hr : TestInstallation.report importer (m, d)
                     = TestInstallation.LineOk d)
          by (unfold TestInstallation.report; cbn [fst snd]; now rewrite E).
        assert (Hf : TestInstallation.fails importer (m, d) = false)
          by (unfold TestInstallation.fails; cbn [fst]; now rewrite E).
        rewrite Hr, Hf, IH by (intros; apply Hno; now right).
        cbn [TestInstallation.attempted TestInstallation.printed
               TestInstallation.errors fst].
        now rewrite <- !app_assoc.
      + assert (Hr : TestInstallation.report importer (m, d)
                     = TestInstallation.LineErro d e)
          by (unfold TestInstallation.report; cbn [fst snd]; now rewrite E).
        assert (Hf : TestInstallation.fails importer (m, d) = true)
          by (unfold TestInstallation.fails; cbn [fst]; now rewrite E).
        rewrite Hr, Hf, IH by (intros; apply Hno; now right).
        cbn [TestInstallation.attempted TestInstallation.printed
               TestInstallation.errors fst snd map].
        now rewrite <- !app_assoc. }
  apply Hgen.
Qed.

(** ** The further properties at concrete inputs *)

Lemma grid_concatenation_witness :
  exists w w1 w2,
    run sqrt6 index_order cfg3 estacoes3 (grid4 ++ grid4) = (Ok tt, w)
    /\ run sqrt6 index_order cfg3 estacoes3 grid4 = (Ok tt, w1)
    /\ run sqrt6 index_order cfg3 estacoes3 grid4 = (Ok tt, w2)
    /\ output w = output w1 ++ output w2.
Proof.
  apply (grid_concatenation sqrt6 index_order index_order_perm cfg3 estacoes3
           grid4 grid4);
    [discriminate | reflexivity | discriminate].
Defined.

Lemma batches_contiguous_witness :
  let ranges := batch_ranges (batch_size cfg3) (Z.of_nat (length grid4)) in
  exists w,
    run sqrt6 index_order cfg3 estacoes3 grid4 = (Ok tt, w)
    /\ trace w = flat_map batch_events ranges
    /\ chained 0 ranges (Z.of_nat (length grid4)).
Proof.
  apply (batches_contiguous sqrt6 index_order index_order_perm cfg3 estacoes3
           grid4);
    [discriminate | reflexivity | discriminate].
Defined.

Lemma queries_bounded_witness :
  exists w,
    run sqrt6 index_order cfg3 estacoes3 grid4 = (Ok tt, w)
    /\ Z.of_nat (length (filter is_query (trace w)))
       = ((Z.of_nat (length grid4) + batch_size cfg3 - 1) / batch_size cfg3)%Z
    /\ forall s e, In (EvQuery s e) (trace w) ->
         (0 <= s < e /\ e <= Z.of_nat (length grid4)
          /\ e - s <= batch_size cfg3)%Z.
Proof.
  apply (queries_bounded sqrt6 index_order index_order_perm cfg3 estacoes3
           grid4);
    [discriminate | reflexivity | discriminate].
Defined.

Lemma too_few_stations_all_fallback_witness :
  exists w,
    run sqrt6 index_order default_config estacao42 grid4 = (Ok tt, w)
    /\ output w = map (fun _ => (np.mean (valores estacao42), 0%Z)) grid4.
Proof.
  apply (too_few_stations_all_fallback sqrt6 index_order index_order_perm
           default_config estacao42 grid4);
    [discriminate | reflexivity | discriminate | reflexivity].
Defined.


Lemma no_minimum_no_neighbor_witness :
  exists w,
    run sqrt6 index_order cfg_min0 estacoes3 grid4 = (Ok tt, w)
    /\ nth_error (output w) 2 = Some (0, 0%Z).
Proof.
  apply (no_minimum_no_neighbor sqrt6 index_order index_order_perm cfg_min0
           estacoes3 grid4 2%nat (5000, 5000)%Q);
    [discriminate | reflexivity | discriminate | discriminate | reflexivity
    | reflexivity].
Defined.

Lemma negative_batch_size_skips_all_witness :
  run sqrt6 index_order (with_batch_size cfg3 (-2)) estacoes3 grid4
  = (Ok tt, {| resultados := np.zeros 0 (length grid4);
               vizinhos_count := np.zeros 0%Z (length grid4);
               trace := [] |}).
Proof.
  apply (negative_batch_size_skips_all sqrt6 index_order
           (with_batch_size cfg3 (-2)) estacoes3 grid4); [discriminate | reflexivity].
Defined.

Lemma zero_batch_size_fails_early_witness :
  run sqrt6 index_order (with_batch_size cfg3 0) estacoes3 grid4
  = (Raise ZeroDivisionError,
     {| resultados := np.zeros 0 (length grid4);
        vizinhos_count := np.zeros 0%Z (length grid4);
        trace := [] |}).
Proof.
  apply (zero_batch_size_fails_early sqrt6 index_order
           (with_batch_size cfg3 0) estacoes3 grid4); [discriminate | reflexivity].
Defined.

Lemma wider_cutoff_more_neighbors_witness :
  exists w w',
    run sqrt6 index_order cfg_sparse estacao42 [(10000, 0)] = (Ok tt, w)
    /\ run sqrt6 index_order (with_max_distance cfg_sparse 20) estacao42
         [(10000, 0)] = (Ok tt, w')
    /\ Forall2 Z.le (vizinhos_count w) (vizinhos_count w').
Proof.
  apply (wider_cutoff_more_neighbors sqrt6 index_order index_order_perm
           cfg_sparse estacao42 [(10000, 0)%Q] 20);
    [discriminate | reflexivity | discriminate | discriminate].
Defined.

Lemma tie_order_leaves_counts_witness :
  exists w1 w2,
    run sqrt6 index_order cfg3 estacoes_empate [(0, 0)] = (Ok tt, w1)
    /\ run sqrt6 reverse_order cfg3 estacoes_empate [(0, 0)] = (Ok tt, w2)
    /\ vizinhos_count w1 = vizinhos_count w2
    /\ (forall x,
          Forall2 Qeq
            (map fst (neighbors sqrt6 index_order cfg3 estacoes_empate x))
            (map fst (neighbors sqrt6 reverse_order cfg3 estacoes_empate x)))
    /\ (forall j, nth_error (vizinhos_count w1) j = Some 0%Z ->
          nth_error (resultados w1) j = nth_error (resultados w2) j).
Proof.
  apply (tie_order_leaves_counts sqrt6 index_order reverse_order cfg3
           estacoes_empate [(0, 0)%Q] index_order_perm reverse_order_perm);
    [discriminate | reflexivity | discriminate].
Defined.

Lemma procurar_grid_never_own_output_witness :
  Arquivos.procurar_grid Arquivos.listagem_exemplo = Some Arquivos.grid_norte_5km
  /\ In Arquivos.grid_norte_5km Arquivos.listagem_exemplo
  /\ (exists a b, Arquivos.grid_norte_5km
                  = String.append a (String.append Arquivos.marca_5km b))
  /\ ~ (exists a b, Arquivos.grid_norte_5km
                    = String.append a (String.append Arquivos.marca_clima b))
  /\ Arquivos.grid_norte_5km <> Arquivos.saida_gpkg
  /\ Arquivos.grid_norte_5km <> Arquivos.saida_csv.
Proof.
  split; [reflexivity|].
  apply (procurar_grid_never_own_output Arquivos.listagem_exemplo). reflexivity.
Defined.

Lemma test_libs_reports_all_witness :
  exists st,
    TestInstallation.test_libs TestInstallation.importer_sem_xgboost
      TestInstallation.libs_to_test TestInstallation.state0
    = TestInstallation.Finished st
    /\ TestInstallation.attempted st = map fst TestInstallation.libs_to_test
    /\ TestInstallation.printed st
       = map (TestInstallation.report TestInstallation.importer_sem_xgboost)
           TestInstallation.libs_to_test
    /\ TestInstallation.errors st
       = map snd (filter (TestInstallation.fails TestInstallation.importer_sem_xgboost)
                    TestInstallation.libs_to_test)
    /\ (TestInstallation.final_message (TestInstallation.errors st)
        = TestInstallation.Sucesso
        <-> forall lib, In lib TestInstallation.libs_to_test ->
              TestInstallation.importer_sem_xgboost (fst lib)
              = TestInstallation.Imported).
Proof.
  apply (test_libs_reports_all TestInstallation.importer_sem_xgboost
           TestInstallation.libs_to_test).
  intros lib Hl. unfold TestInstallation.importer_sem_xgboost.
  destruct (String.eqb (fst lib) _); discriminate.
Defined.

Lemma test_libs_stops_at_other_exception_witness :
  TestInstallation.libs_to_test
  = TestInstallation.antes_de_rasterio
    ++ TestInstallation.lib_rasterio :: TestInstallation.depois_de_rasterio
  /\ TestInstallation.test_libs TestInstallation.importer_rasterio_quebrado
       (TestInstallation.antes_de_rasterio
        ++ TestInstallation.lib_rasterio :: TestInstallation.depois_de_rasterio)
       TestInstallation.state0
     = TestInstallation.Uncaught
         {| TestInstallation.attempted :=
              map fst TestInstallation.antes_de_rasterio
              ++ [fst TestInstallation.lib_rasterio];
            TestInstallation.printed :=
              map (TestInstallation.report TestInstallation.importer_rasterio_quebrado)
                TestInstallation.antes_de_rasterio;
            TestInstallation.errors :=
              map snd (filter (TestInstallation.fails
                                 TestInstallation.importer_rasterio_quebrado)
                         TestInstallation.antes_de_rasterio) |}.
Proof.
  split; [reflexivity|].
  apply (test_libs_stops_at_other_exception
           TestInstallation.importer_rasterio_quebrado
           TestInstallation.antes_de_rasterio TestInstallation.lib_rasterio
           TestInstallation.depois_de_rasterio).
  - intros l [<-|[]]. discriminate.
  - reflexivity.
Defined.
